(** * The manga reader's batch analysis, OCR and narration logic

    A shallow embedding of [src/utils/ocr.ts] and of the scheduling,
    caching and narration code of [src/components/Reader.tsx], with the
    properties of the reader's specification stated and settled on it.

    Conventions.
    - A JavaScript string is a Rocq [string]; each character stands for one
      UTF-16 code unit below 256.
    - A value produced by [JSON.parse] is a [value].  Numbers are carried as
      integers: the code only tests them for truthiness or subtracts box
      coordinates.
    - A call that may throw returns an [outcome]; the message of the thrown
      error is kept.
    - [JSON.parse] itself is the platform's: the functions of [ocr.ts] take
      it as the section variable [JSON_parse], and every theorem holds for
      every parser.  [MiniJSON] is a small concrete parser used to run the
      examples.
    - An [async] function is cut at its [await]s: the part that runs up to
      the first [await] is one transition of the reader, each resumption is
      another one, and the suspended calls are kept in the state. *)

From Stdlib Require Import Ascii String ZArith List Permutation Lia.
From stdpp Require Import base option list gmap strings.

Set Warnings "-register-all,-clear-no-such-hyp".
Local Open Scope string_scope.

(** ** JavaScript values and the few built-ins the code relies on *)

Module JS.

Inductive outcome (A : Type) : Type :=
| Returns (a : A)
| Throws (msg : string).
Arguments Returns {A} a.
Arguments Throws {A} msg.

#[global] Instance outcome_ret : MRet outcome := fun A a => Returns a.

#[global] Instance outcome_bind : MBind outcome := fun A B k m =>
  match m with
  | Returns a => k a
  | Throws msg => Throws msg
  end.

Inductive value : Type :=
| VUndefined
| VNull
| VBool (b : bool)
| VNum (n : Z)
| VStr (s : string)
| VArr (items : list value)
| VObj (fields : list (string * value)).

Definition string_empty (s : string) : bool :=
  match s with
  | EmptyString => true
  | String _ _ => false
  end.

(** [ToBoolean]. *)
Definition truthy (v : value) : bool :=
  match v with
  | VUndefined | VNull => false
  | VBool b => b
  | VNum n => negb (Z.eqb n 0)
  | VStr s => negb (string_empty s)
  | VArr _ | VObj _ => true
  end.

(** [a || b]. *)
Definition or_else (a b : value) : value :=
  if truthy a then a else b.

Definition isArray (v : value) : bool :=
  match v with
  | VArr _ => true
  | _ => false
  end.

Fixpoint assoc (k : string) (fields : list (string * value)) : value :=
  match fields with
  | [] => VUndefined
  | (k', v) :: rest => if String.eqb k k' then v else assoc k rest
  end.

(** [v.name] for a name that no prototype defines: a [TypeError] on
    [null] and [undefined], the own property of an object, [undefined]
    on everything else. *)
Definition get_prop (v : value) (name : string) : outcome value :=
  match v with
  | VUndefined => Throws ("Cannot read properties of undefined (reading '" +:+ name +:+ "')")
  | VNull => Throws ("Cannot read properties of null (reading '" +:+ name +:+ "')")
  | VObj fields => Returns (assoc name fields)
  | _ => Returns VUndefined
  end.

(** [arr[i]]. *)
Definition index (arr : list value) (i : nat) : value :=
  nth i arr VUndefined.

(** *** Strings *)

Definition to_upper (c : ascii) : ascii :=
  let n := nat_of_ascii c in
  if (97 <=? n)%nat && (n <=? 122)%nat then ascii_of_nat (n - 32) else c.

(** Equality of two code units, under the [i] flag when [ci] is set. *)
Definition char_eq (ci : bool) (a b : ascii) : bool :=
  if ci then Ascii.eqb (to_upper a) (to_upper b) else Ascii.eqb a b.

(** Does the literal pattern [p] match at the start of [s]? *)
Fixpoint matches_at (ci : bool) (p s : string) : bool :=
  match p with
  | EmptyString => true
  | String a p' =>
      match s with
      | EmptyString => false
      | String b s' => char_eq ci a b && matches_at ci p' s'
      end
  end.

(** [s.replace(/p/g, '')] for a literal pattern [p]: a scan from the left
    that drops every match and resumes after it.  [skip] counts the
    characters of the current match still to be dropped. *)
Fixpoint remove_all_from (ci : bool) (p : string) (skip : nat) (s : string) : string :=
  match s with
  | EmptyString => EmptyString
  | String c s' =>
      match skip with
      | S k => remove_all_from ci p k s'
      | O =>
          if matches_at ci p s
          then remove_all_from ci p (String.length p - 1) s'
          else String c (remove_all_from ci p 0 s')
      end
  end.

Definition remove_all (ci : bool) (p s : string) : string :=
  remove_all_from ci p 0 s.

(** White space and line terminators among the code units below 256. *)
Definition is_whitespace (c : ascii) : bool :=
  let n := nat_of_ascii c in
  (Nat.eqb n 9 || Nat.eqb n 10 || Nat.eqb n 11 || Nat.eqb n 12
   || Nat.eqb n 13 || Nat.eqb n 32 || Nat.eqb n 160).

Fixpoint trim_start (s : string) : string :=
  match s with
  | EmptyString => EmptyString
  | String c s' => if is_whitespace c then trim_start s' else s
  end.

Fixpoint trim_end (s : string) : string :=
  match s with
  | EmptyString => EmptyString
  | String c s' =>
      let r := trim_end s' in
      if is_whitespace c && string_empty r then EmptyString else String c r
  end.

(** [s.trim()]. *)
Definition trim (s : string) : string := trim_end (trim_start s).

End JS.

Import JS.

(** ** [src/utils/ocr.ts] *)

Module Ocr.

(** What [ai.models.generateContent] gives back: it rejects, or it resolves
    to a response whose [text] is a string or [undefined]. *)
Definition reply : Type := outcome (option string).

(** [!text]. *)
Definition no_text (text : option string) : bool :=
  match text with
  | None => true
  | Some t => string_empty t
  end.

Definition text_of (text : option string) : string :=
  match text with
  | None => EmptyString
  | Some t => t
  end.

(** [text.replace(/```json/gi, '').replace(/```/g, '').trim()]. *)
Definition cleanedResponse (text : string) : string :=
  trim (remove_all false "```" (remove_all true "```json" text)).

Section WithParser.

Variable JSON_parse : string -> outcome value.

(** [base64Images.map(() => [])]. *)
Definition empty_results (base64Images : list string) : list value :=
  map (fun _ => VArr []) base64Images.

(** [pageResult.bubbles || []]. *)
Definition page_bubbles (pageResult : value) : outcome value :=
  b ← get_prop pageResult "bubbles"; mret (or_else b (VArr [])).

(** [analyzeMangaPages]: the promise it returns never rejects, so its
    result is a plain list. *)
Definition analyzeMangaPages (base64Images : list string) (response : reply) : list value :=
  match response with
  | Throws _ => empty_results base64Images
  | Returns text =>
      if no_text text then empty_results base64Images
      else
        match JSON_parse (text_of text) with
        | Throws _ => empty_results base64Images
        | Returns parsed =>
            match parsed with
            | VArr items =>
                match mapM page_bubbles items with
                | Returns results => results
                | Throws _ => empty_results base64Images
                end
            | _ => empty_results base64Images
            end
        end
  end.

(** The value of [parsed] in [performBatchedOCR]:
    [JSON.parse(cleanedResponse)]. *)
Definition parsedResponse (text : string) : outcome value :=
  JSON_parse (cleanedResponse text).

(** [imageUrls.map(() => '')]. *)
Definition empty_texts (imageUrls : list string) : list value :=
  map (fun _ => VStr "") imageUrls.

(** The message of the error thrown when the response does not parse. *)
Definition parse_failure (message text : string) : string :=
  "JSON parse failed: " +:+ message +:+ ". Raw: " +:+ substring 0 100 text.

(** [performBatchedOCR].  [merged] is the outcome of
    [mergeImagesToBase64(imageUrls)]; an error of either call is logged and
    thrown again. *)
Definition performBatchedOCR (imageUrls : list string) (merged : outcome string)
    (response : reply) : outcome (list value) :=
  _ ← merged;
  text ← response;
  if no_text text then Returns (empty_texts imageUrls)
  else
    match parsedResponse (text_of text) with
    | Throws message => Throws (parse_failure message (text_of text))
    | Returns parsed =>
        match parsed with
        | VArr items =>
            Returns (imap (fun i _ => or_else (index items i) (VStr "")) imageUrls)
        | _ => Returns (empty_texts imageUrls)
        end
    end.

End WithParser.

(** *** Data URLs and the stacked image *)

(** The characters of [s] before its first comma. *)
Fixpoint until_comma (s : string) : string :=
  match s with
  | EmptyString => EmptyString
  | String c s' => if Ascii.eqb c ","%char then EmptyString else String c (until_comma s')
  end.

(** [s.split(',')[1]]: what stands between the first comma and the next
    one, [undefined] when [s] has no comma. *)
Fixpoint split_comma_1 (s : string) : value :=
  match s with
  | EmptyString => VUndefined
  | String c s' => if Ascii.eqb c ","%char then VStr (until_comma s') else split_comma_1 s'
  end.

(** The [onloadend] handler of [blobUrlToBase64]: [result] is
    [reader.result?.toString()]; the promise resolves to the data part or
    rejects. *)
Definition blobUrlToBase64_onloadend (result : option string) : outcome value :=
  match result with
  | Some r =>
      if string_empty r then Throws "Failed to convert blob to base64"
      else Returns (split_comma_1 r)
  | None => Throws "Failed to convert blob to base64"
  end.

(** [scaledHeights.reduce((s, h) => s + h, 0)]. *)
Definition totalHeight (scaledHeights : list Z) : Z :=
  fold_left Z.add scaledHeights 0%Z.

(** The drawing loop of [mergeImagesToBase64]: the [y] at which each image
    is drawn, [y] growing by the scaled height of the image drawn. *)
Fixpoint draw_offsets (y : Z) (scaledHeights : list Z) : list Z :=
  match scaledHeights with
  | [] => []
  | scaledH :: rest => y :: draw_offsets (y + scaledH) rest
  end.

End Ocr.

(** ** A concrete parser for a fragment of JSON

    [null], [true], [false], integers, strings with the one-letter escapes,
    arrays and objects.  It instantiates [JSON_parse] in the examples. *)

Module MiniJSON.

Definition dq : ascii := "034"%char.
Definition backslash : ascii := "092"%char.

(** The text of a string literal without escapes. *)
Definition quoted (s : string) : string :=
  String dq (s +:+ String dq EmptyString).

Definition is_ws (c : ascii) : bool :=
  let n := nat_of_ascii c in
  (Nat.eqb n 32 || Nat.eqb n 9 || Nat.eqb n 10 || Nat.eqb n 13).

Fixpoint skip_ws (s : string) : string :=
  match s with
  | EmptyString => EmptyString
  | String c s' => if is_ws c then skip_ws s' else s
  end.

Definition unescape (c : ascii) : option ascii :=
  if Ascii.eqb c dq then Some dq
  else if Ascii.eqb c backslash then Some backslash
  else if Ascii.eqb c "/"%char then Some "/"%char
  else if Ascii.eqb c "n"%char then Some "010"%char
  else if Ascii.eqb c "t"%char then Some "009"%char
  else if Ascii.eqb c "r"%char then Some "013"%char
  else if Ascii.eqb c "b"%char then Some "008"%char
  else if Ascii.eqb c "f"%char then Some "012"%char
  else None.

(** The characters of a string literal after its opening quote, and what
    follows the closing quote.  [escaped] is set right after a backslash. *)
Fixpoint string_body (escaped : bool) (s : string) : option (string * string) :=
  match s with
  | EmptyString => None
  | String c s' =>
      if escaped then
        match unescape c, string_body false s' with
        | Some ch, Some (body, rest) => Some (String ch body, rest)
        | _, _ => None
        end
      else if Ascii.eqb c dq then Some (EmptyString, s')
      else if Ascii.eqb c backslash then string_body true s'
      else if (nat_of_ascii c <? 32)%nat then None
      else
        match string_body false s' with
        | Some (body, rest) => Some (String c body, rest)
        | None => None
        end
  end.

Definition is_digit (c : ascii) : bool :=
  let n := nat_of_ascii c in (48 <=? n)%nat && (n <=? 57)%nat.

(** The digits at the start of [s], read in base ten after [acc]. *)
Fixpoint digits (acc : Z) (s : string) : Z * string :=
  match s with
  | EmptyString => (acc, s)
  | String c s' =>
      if is_digit c
      then digits (10 * acc + Z.of_nat (nat_of_ascii c - 48))%Z s'
      else (acc, s)
  end.

Definition number (s : string) : option (Z * string) :=
  match s with
  | String c s' =>
      if is_digit c then Some (digits 0%Z s)
      else if Ascii.eqb c "-"%char then
        match s' with
        | String d _ =>
            if is_digit d then let '(n, rest) := digits 0%Z s' in Some ((- n)%Z, rest)
            else None
        | EmptyString => None
        end
      else None
  | EmptyString => None
  end.

(** [s] without the prefix [p], when it starts with it. *)
Fixpoint after_prefix (p s : string) : option string :=
  match p with
  | EmptyString => Some s
  | String a p' =>
      match s with
      | String b s' => if Ascii.eqb a b then after_prefix p' s' else None
      | EmptyString => None
      end
  end.

Fixpoint parse_value (fuel : nat) (s : string) : option (value * string) :=
  match fuel with
  | O => None
  | S f =>
      let elements :=
        fix elements (n : nat) (s : string) : option (list value * string) :=
          match n with
          | O => None
          | S n' =>
              match parse_value f s with
              | None => None
              | Some (v, r) =>
                  match skip_ws r with
                  | String c r' =>
                      if Ascii.eqb c ","%char then
                        match elements n' r' with
                        | Some (vs, r'') => Some (v :: vs, r'')
                        | None => None
                        end
                      else if Ascii.eqb c "]"%char then Some ([v], r')
                      else None
                  | EmptyString => None
                  end
              end
          end in
      let members :=
        fix members (n : nat) (s : string) : option (list (string * value) * string) :=
          match n with
          | O => None
          | S n' =>
              match skip_ws s with
              | String q s1 =>
                  if Ascii.eqb q dq then
                    match string_body false s1 with
                    | None => None
                    | Some (k, s2) =>
                        match skip_ws s2 with
                        | String colon s3 =>
                            if Ascii.eqb colon ":"%char then
                              match parse_value f s3 with
                              | None => None
                              | Some (v, r) =>
                                  match skip_ws r with
                                  | String c r' =>
                                      if Ascii.eqb c ","%char then
                                        match members n' r' with
                                        | Some (kvs, r'') => Some ((k, v) :: kvs, r'')
                                        | None => None
                                        end
                                      else if Ascii.eqb c "}"%char then Some ([(k, v)], r')
                                      else None
                                  | EmptyString => None
                                  end
                              end
                            else None
                        | EmptyString => None
                        end
                    end
                  else None
              | EmptyString => None
              end
          end in
      match skip_ws s with
      | EmptyString => None
      | String c rest =>
          if Ascii.eqb c "["%char then
            match skip_ws rest with
            | String c' rest' =>
                if Ascii.eqb c' "]"%char then Some (VArr [], rest')
                else
                  match elements fuel rest with
                  | Some (vs, r) => Some (VArr vs, r)
                  | None => None
                  end
            | EmptyString => None
            end
          else if Ascii.eqb c "{"%char then
            match skip_ws rest with
            | String c' rest' =>
                if Ascii.eqb c' "}"%char then Some (VObj [], rest')
                else
                  match members fuel rest with
                  | Some (kvs, r) => Some (VObj kvs, r)
                  | None => None
                  end
            | EmptyString => None
            end
          else if Ascii.eqb c dq then
            match string_body false rest with
            | Some (body, r) => Some (VStr body, r)
            | None => None
            end
          else
            match after_prefix "null" (String c rest), after_prefix "true" (String c rest),
                  after_prefix "false" (String c rest), number (String c rest) with
            | Some r, _, _, _ => Some (VNull, r)
            | _, Some r, _, _ => Some (VBool true, r)
            | _, _, Some r, _ => Some (VBool false, r)
            | _, _, _, Some (n, r) => Some (VNum n, r)
            | _, _, _, _ => None
            end
      end
  end.

(** Later members win over earlier ones with the same key, as in
    [JSON.parse]; [assoc] reads the first binding, so the members are kept
    in reverse. *)
Fixpoint normalize (v : value) : value :=
  match v with
  | VArr items => VArr (map normalize items)
  | VObj fields => VObj (rev (map (fun kv => (fst kv, normalize (snd kv))) fields))
  | _ => v
  end.

Definition parse (s : string) : outcome value :=
  match parse_value (S (String.length s)) s with
  | Some (v, rest) =>
      match skip_ws rest with
      | EmptyString => Returns (normalize v)
      | String _ _ => Throws "Unexpected non-whitespace character after JSON"
      end
  | None => Throws "Unexpected token or end of JSON input"
  end.

End MiniJSON.

(** ** [src/components/Reader.tsx] *)

Module Reader.

Definition BATCH_SIZE : nat := 4.

(** Modelled from the spec: the types [SpeechBubble] and [OCRCache] of
    [src/types], which the reader imports and which are not among the
    sources.  A bubble is a text and a box of four integers
    [ymin, xmin, ymax, xmax]; a cache entry is a bubble list and a status. *)
Record Box : Type := mkBox { ymin : Z; xmin : Z; ymax : Z; xmax : Z }.

Record SpeechBubble : Type := mkBubble { text : string; box_2d : Box }.

Inductive Status : Type := preloaded | loading | complete | error.

Record PageAnalysisEntry : Type := mkEntry { bubbles : list SpeechBubble; status : Status }.

Definition is_complete (s : Status) : bool :=
  match s with
  | complete => true
  | _ => false
  end.

(** The values that are a [SpeechBubble[]], as TypeScript takes the
    results of [analyzeMangaPages] to be. *)
Definition as_box (v : value) : option Box :=
  match v with
  | VArr [VNum a; VNum b; VNum c; VNum d] => Some (mkBox a b c d)
  | _ => None
  end.

Definition as_bubble (v : value) : option SpeechBubble :=
  match v with
  | VObj fields =>
      match assoc "text" fields, as_box (assoc "box_2d" fields) with
      | VStr t, Some box => Some (mkBubble t box)
      | _, _ => None
      end
  | _ => None
  end.

Definition as_bubbles (v : value) : option (list SpeechBubble) :=
  match v with
  | VArr items => mapM as_bubble items
  | _ => None
  end.

Definition as_results (vs : list value) : option (list (list SpeechBubble)) :=
  mapM as_bubbles vs.

(** *** The order of the bubbles of a page *)

(** The comparison function given to [bubbles.sort]. *)
Definition compareBubbles (a b : SpeechBubble) : Z :=
  let yDiff := (ymin (box_2d a) - ymin (box_2d b))%Z in
  if (Z.abs yDiff >? 50)%Z then yDiff
  else (xmin (box_2d b) - xmin (box_2d a))%Z.

(** [Array.prototype.sort] is stable; it is modelled by the stable
    insertion sort, which every engine agrees with whenever the comparison
    function is a consistent order on the elements. *)
Fixpoint insert_sorted {A : Type} (cmp : A -> A -> Z) (x : A) (l : list A) : list A :=
  match l with
  | [] => [x]
  | y :: l' =>
      if (cmp x y <=? 0)%Z then x :: y :: l' else y :: insert_sorted cmp x l'
  end.

Fixpoint sort {A : Type} (cmp : A -> A -> Z) (l : list A) : list A :=
  match l with
  | [] => []
  | x :: l' => insert_sorted cmp x (sort cmp l')
  end.

(** *** Speech *)

Record Voice : Type := mkVoice { name : string; lang : string }.

Record Utterance : Type :=
  mkUtterance { utext : string; volume : nat; voice : option Voice }.

(** The calls made on the speech synthesiser, oldest first. *)
Inductive SpeechAction : Type :=
| Cancel
| Speak (u : Utterance).

(** [s.includes(p)]. *)
Fixpoint includes (p s : string) : bool :=
  matches_at false p s ||
  match s with
  | EmptyString => false
  | String _ s' => includes p s'
  end.

(** [voices.find(v => v.name.includes('Google US English')) ||
     voices.find(v => v.lang.startsWith('en'))]. *)
Definition pick_voice (voices : list Voice) : option Voice :=
  match List.find (fun v => includes "Google US English" (name v)) voices with
  | Some v => Some v
  | None => List.find (fun v => matches_at false "en" (lang v)) voices
  end.

(** *** The state of a reader session *)

(** The calls that reach the generative-AI endpoint: [analyzeMangaPages]
    on the images of a vision batch, [performBatchedOCR] on the pages
    of an OCR batch. *)
Inductive RemoteCall : Type :=
| VisionCall (batchIndex : nat) (base64Images : list string)
| OcrCall (batchStart : nat) (urls : list string).

(** A call of an [async] function that is waiting at an [await]. *)
Inductive Task : Type :=
| PreloadWaiting (batchIndex : nat)
| AnalyzeConverting (batchIndex : nat)
| AnalyzeWaiting (batchIndex : nat) (base64Images : list string)
| OcrWaiting (index : nat) (urls : list string).

#[global] Instance Task_eq_dec : EqDecision Task.
Proof. solve_decision. Defined.

Record State : Type := mkState {
  currentIndex : nat;
  analysisCache : gmap nat PageAnalysisEntry;
  ocrTextCache : gmap nat value;
  debugError : option string;
  isAnalysisEnabled : bool;
  processingQueue : gset nat;
  pendingOCRBatches : gset nat;
  preloadedImages : gset nat;
  ttsEnabled : bool;
  activeBubbleIndex : option nat;
  lastSpokenPageIndex : option nat;
  speech : list SpeechAction;
  remoteCalls : list RemoteCall;
  waiting : list Task
}.

(** The state of the first render.  The effects of the mount are events of
    the session; the cancellation it sends to the idle synthesiser is not
    logged. *)
Definition initial : State :=
  mkState 0 ∅ ∅ None false ∅ ∅ ∅ false None None [] [] [].

(** Assignments to one component of the state. *)
Definition set_currentIndex (x : nat) (st : State) : State :=
  mkState x (analysisCache st) (ocrTextCache st) (debugError st) (isAnalysisEnabled st) (processingQueue st) (pendingOCRBatches st) (preloadedImages st) (ttsEnabled st) (activeBubbleIndex st) (lastSpokenPageIndex st) (speech st) (remoteCalls st) (waiting st).

Definition set_analysisCache (x : gmap nat PageAnalysisEntry) (st : State) : State :=
  mkState (currentIndex st) x (ocrTextCache st) (debugError st) (isAnalysisEnabled st) (processingQueue st) (pendingOCRBatches st) (preloadedImages st) (ttsEnabled st) (activeBubbleIndex st) (lastSpokenPageIndex st) (speech st) (remoteCalls st) (waiting st).

Definition set_ocrTextCache (x : gmap nat value) (st : State) : State :=
  mkState (currentIndex st) (analysisCache st) x (debugError st) (isAnalysisEnabled st) (processingQueue st) (pendingOCRBatches st) (preloadedImages st) (ttsEnabled st) (activeBubbleIndex st) (lastSpokenPageIndex st) (speech st) (remoteCalls st) (waiting st).

Definition set_debugError (x : option string) (st : State) : State :=
  mkState (currentIndex st) (analysisCache st) (ocrTextCache st) x (isAnalysisEnabled st) (processingQueue st) (pendingOCRBatches st) (preloadedImages st) (ttsEnabled st) (activeBubbleIndex st) (lastSpokenPageIndex st) (speech st) (remoteCalls st) (waiting st).

Definition set_isAnalysisEnabled (x : bool) (st : State) : State :=
  mkState (currentIndex st) (analysisCache st) (ocrTextCache st) (debugError st) x (processingQueue st) (pendingOCRBatches st) (preloadedImages st) (ttsEnabled st) (activeBubbleIndex st) (lastSpokenPageIndex st) (speech st) (remoteCalls st) (waiting st).

Definition set_processingQueue (x : gset nat) (st : State) : State :=
  mkState (currentIndex st) (analysisCache st) (ocrTextCache st) (debugError st) (isAnalysisEnabled st) x (pendingOCRBatches st) (preloadedImages st) (ttsEnabled st) (activeBubbleIndex st) (lastSpokenPageIndex st) (speech st) (remoteCalls st) (waiting st).

Definition set_pendingOCRBatches (x : gset nat) (st : State) : State :=
  mkState (currentIndex st) (analysisCache st) (ocrTextCache st) (debugError st) (isAnalysisEnabled st) (processingQueue st) x (preloadedImages st) (ttsEnabled st) (activeBubbleIndex st) (lastSpokenPageIndex st) (speech st) (remoteCalls st) (waiting st).

Definition set_preloadedImages (x : gset nat) (st : State) : State :=
  mkState (currentIndex st) (analysisCache st) (ocrTextCache st) (debugError st) (isAnalysisEnabled st) (processingQueue st) (pendingOCRBatches st) x (ttsEnabled st) (activeBubbleIndex st) (lastSpokenPageIndex st) (speech st) (remoteCalls st) (waiting st).

Definition set_ttsEnabled (x : bool) (st : State) : State :=
  mkState (currentIndex st) (analysisCache st) (ocrTextCache st) (debugError st) (isAnalysisEnabled st) (processingQueue st) (pendingOCRBatches st) (preloadedImages st) x (activeBubbleIndex st) (lastSpokenPageIndex st) (speech st) (remoteCalls st) (waiting st).

Definition set_activeBubbleIndex (x : option nat) (st : State) : State :=
  mkState (currentIndex st) (analysisCache st) (ocrTextCache st) (debugError st) (isAnalysisEnabled st) (processingQueue st) (pendingOCRBatches st) (preloadedImages st) (ttsEnabled st) x (lastSpokenPageIndex st) (speech st) (remoteCalls st) (waiting st).

Definition set_lastSpokenPageIndex (x : option nat) (st : State) : State :=
  mkState (currentIndex st) (analysisCache st) (ocrTextCache st) (debugError st) (isAnalysisEnabled st) (processingQueue st) (pendingOCRBatches st) (preloadedImages st) (ttsEnabled st) (activeBubbleIndex st) x (speech st) (remoteCalls st) (waiting st).

Definition set_speech (x : list SpeechAction) (st : State) : State :=
  mkState (currentIndex st) (analysisCache st) (ocrTextCache st) (debugError st) (isAnalysisEnabled st) (processingQueue st) (pendingOCRBatches st) (preloadedImages st) (ttsEnabled st) (activeBubbleIndex st) (lastSpokenPageIndex st) x (remoteCalls st) (waiting st).

Definition set_remoteCalls (x : list RemoteCall) (st : State) : State :=
  mkState (currentIndex st) (analysisCache st) (ocrTextCache st) (debugError st) (isAnalysisEnabled st) (processingQueue st) (pendingOCRBatches st) (preloadedImages st) (ttsEnabled st) (activeBubbleIndex st) (lastSpokenPageIndex st) (speech st) x (waiting st).

Definition set_waiting (x : list Task) (st : State) : State :=
  mkState (currentIndex st) (analysisCache st) (ocrTextCache st) (debugError st) (isAnalysisEnabled st) (processingQueue st) (pendingOCRBatches st) (preloadedImages st) (ttsEnabled st) (activeBubbleIndex st) (lastSpokenPageIndex st) (speech st) (remoteCalls st) x.

(** *** Page ranges *)

(** The indices [i] of [for (let i = startPage; i < endPage; i++)]. *)
Definition page_range (startPage endPage : nat) : list nat :=
  seq startPage (endPage - startPage).

(** Drops one occurrence of a task that has resumed. *)
Fixpoint resume (t : Task) (ts : list Task) : list Task :=
  match ts with
  | [] => []
  | t' :: ts' => if decide (t = t') then ts' else t' :: resume t ts'
  end.

Definition is_waiting (t : Task) (st : State) : bool :=
  bool_decide (t ∈ waiting st).

(** *** Updates of the analysis cache *)

(** [if (nextState[i]?.status !== 'complete')
       nextState[i] = { bubbles: [], status: s }]. *)
Definition mark (s : Status) (nextState : gmap nat PageAnalysisEntry) (i : nat)
    : gmap nat PageAnalysisEntry :=
  match nextState !! i with
  | Some entry =>
      if is_complete (status entry) then nextState
      else <[i := mkEntry [] s]> nextState
  | None => <[i := mkEntry [] s]> nextState
  end.

Definition mark_range (s : Status) (startPage endPage : nat)
    (prev : gmap nat PageAnalysisEntry) : gmap nat PageAnalysisEntry :=
  foldl (mark s) prev (page_range startPage endPage).

(** The updater of the [catch] branch of [analyzeBatch]. *)
Definition mark_failed (startPage endPage : nat)
    (prev : gmap nat PageAnalysisEntry) : gmap nat PageAnalysisEntry :=
  foldl (fun nextState i => <[i := mkEntry [] error]> nextState) prev
        (page_range startPage endPage).

(** The updater run on the results of [analyzeMangaPages]:
    [batchResults.forEach((bubbles, relativeIndex) => ...)], with
    [absoluteIndex] running from [startPage]. *)
Fixpoint store_results (absoluteIndex : nat) (batchResults : list (list SpeechBubble))
    (nextState : gmap nat PageAnalysisEntry) : gmap nat PageAnalysisEntry :=
  match batchResults with
  | [] => nextState
  | bubbles :: rest =>
      store_results (S absoluteIndex) rest
        (<[absoluteIndex := mkEntry (sort compareBubbles bubbles) complete]> nextState)
  end.

(** The updater of the text cache:
    [texts.forEach((t, i) => next[batchStart + i] = t || '')]. *)
Fixpoint store_texts (absoluteIndex : nat) (texts : list value)
    (next : gmap nat value) : gmap nat value :=
  match texts with
  | [] => next
  | t :: rest =>
      store_texts (S absoluteIndex) rest (<[absoluteIndex := or_else t (VStr "")]> next)
  end.

(** *** The functions of the component *)

Section Session.

(** [manga.pages], fixed for the session. *)
Variable pages : list string.

Variable JSON_parse : string -> outcome value.

(** [preloadBatch], up to [await Promise.all(promises)].  The images it
    creates report through [image_onload]. *)
Definition preloadBatch (batchIndex : nat) (st : State) : State :=
  if bool_decide (batchIndex ∈ processingQueue st) then st
  else
    let startPage := batchIndex * BATCH_SIZE in
    let endPage := Nat.min (startPage + BATCH_SIZE) (length pages) in
    if forallb (fun i => bool_decide (i ∈ preloadedImages st)) (page_range startPage endPage)
    then st
    else
      set_waiting (waiting st ++ [PreloadWaiting batchIndex])
        (set_analysisCache (mark_range preloaded startPage endPage (analysisCache st))
           (set_processingQueue ({[batchIndex]} ∪ processingQueue st) st)).

(** [preloadBatch] after the [await]: only the [finally] block is left. *)
Definition preloadBatch_settled (batchIndex : nat) (st : State) : State :=
  set_processingQueue (processingQueue st ∖ {[batchIndex]})
    (set_waiting (resume (PreloadWaiting batchIndex) (waiting st)) st).

(** [img.onload] of an image created for page [i], by [preloadBatch] or by
    the look-ahead effect; both create one only where [manga.pages[i]] is
    a non-empty URL. *)
Definition image_onload (i : nat) (st : State) : option State :=
  match pages !! i with
  | Some url =>
      if string_empty url then None
      else Some (set_preloadedImages ({[i]} ∪ preloadedImages st) st)
  | None => None
  end.

(** [analyzeBatch], up to [await Promise.all(imagePromises)]. *)
Definition analyzeBatch (batchIndex : nat) (st : State) : State :=
  if bool_decide (batchIndex ∈ processingQueue st) then st
  else
    let startPage := batchIndex * BATCH_SIZE in
    let endPage := Nat.min (startPage + BATCH_SIZE) (length pages) in
    set_waiting (waiting st ++ [AnalyzeConverting batchIndex])
      (set_analysisCache (mark_range loading startPage endPage (analysisCache st))
         (set_processingQueue ({[batchIndex]} ∪ processingQueue st) st)).

(** The [finally] block of [analyzeBatch]. *)
Definition analyzeBatch_finally (batchIndex : nat) (st : State) : State :=
  set_processingQueue (processingQueue st ∖ {[batchIndex]}) st.

(** [analyzeBatch] resumed with the outcome of the conversions: a
    rejection goes to the [catch] branch, otherwise [analyzeMangaPages] is
    called and awaited. *)
Definition analyzeBatch_converted (batchIndex : nat) (converted : outcome (list string))
    (st : State) : State :=
  let startPage := batchIndex * BATCH_SIZE in
  let endPage := Nat.min (startPage + BATCH_SIZE) (length pages) in
  let st := set_waiting (resume (AnalyzeConverting batchIndex) (waiting st)) st in
  match converted with
  | Returns base64Images =>
      set_waiting (waiting st ++ [AnalyzeWaiting batchIndex base64Images])
        (set_remoteCalls (remoteCalls st ++ [VisionCall batchIndex base64Images]) st)
  | Throws _ =>
      analyzeBatch_finally batchIndex
        (set_analysisCache (mark_failed startPage endPage (analysisCache st)) st)
  end.

(** [Promise.all(imagePromises)] resolves to one string per page of the
    range of the batch. *)
Definition one_per_page (batchIndex : nat) (converted : outcome (list string)) : bool :=
  let startPage := batchIndex * BATCH_SIZE in
  let endPage := Nat.min (startPage + BATCH_SIZE) (length pages) in
  match converted with
  | Returns base64Images => Nat.eqb (length base64Images) (endPage - startPage)
  | Throws _ => true
  end.

(** [analyzeBatch] resumed with the results of [analyzeMangaPages].
    There is no result when the values returned are not bubble lists: the
    updater then fails outside of the function. *)
Definition analyzeBatch_returned (batchIndex : nat) (base64Images : list string)
    (response : Ocr.reply) (st : State) : option State :=
  let startPage := batchIndex * BATCH_SIZE in
  batchResults ← as_results (Ocr.analyzeMangaPages JSON_parse base64Images response);
  Some (analyzeBatch_finally batchIndex
          (set_analysisCache (store_results startPage batchResults (analysisCache st))
             (set_waiting (resume (AnalyzeWaiting batchIndex base64Images) (waiting st)) st))).

(** [ocrTextCache[i]] in the cache [seen]. *)
Definition cached (seen : gmap nat value) (i : nat) : value :=
  default VUndefined (seen !! i).

(** The silent utterance that unlocks the speech engine. *)
Definition unlockMsg : Utterance := mkUtterance EmptyString 0 None.

(** The [finally] block of [requestOCRForPage]. *)
Definition requestOCRForPage_finally (index : nat) (st : State) : State :=
  set_pendingOCRBatches (pendingOCRBatches st ∖ {[index]}) st.

(** [manga.pages.slice(batchStart, batchStart + 3)]. *)
Definition slice3 (batchStart : nat) : list string :=
  take 3 (drop batchStart pages).

(** [requestOCRForPage], up to [await performBatchedOCR(urls)].

    [seen] is the [ocrTextCache] the function body reads.  The callback is
    memoised on [manga.pages] alone, so in a session this is the cache of
    the render that created it, the empty one; the function is stated for
    any [seen], which covers the current cache as well. *)
Definition requestOCRForPage (index : nat) (seen : gmap nat value) (st : State) : State :=
  let st := set_debugError None st in
  let batchStart := index in
  let batchEnd := Nat.min (batchStart + 3) (length pages) in
  if forallb (fun i => truthy (cached seen i)) (page_range batchStart batchEnd)
  then requestOCRForPage_finally index st
  else
    let st := set_speech (speech st ++ [Speak unlockMsg]) st in
    if bool_decide (batchStart ∈ pendingOCRBatches st)
    then requestOCRForPage_finally index st
    else
      let st := set_pendingOCRBatches ({[batchStart]} ∪ pendingOCRBatches st) st in
      let urls := slice3 batchStart in
      if Nat.eqb (length urls) 0 then requestOCRForPage_finally index st
      else
        set_waiting (waiting st ++ [OcrWaiting index urls])
          (set_remoteCalls (remoteCalls st ++ [OcrCall batchStart urls]) st).

(** [requestOCRForPage] resumed when [performBatchedOCR(urls)] settles. *)
Definition requestOCRForPage_settled (index : nat) (urls : list string)
    (merged : outcome string) (response : Ocr.reply) (st : State) : State :=
  let st := set_waiting (resume (OcrWaiting index urls) (waiting st)) st in
  match Ocr.performBatchedOCR JSON_parse urls merged response with
  | Returns texts =>
      requestOCRForPage_finally index
        (set_ocrTextCache (store_texts index texts (ocrTextCache st)) st)
  | Throws errorMsg =>
      requestOCRForPage_finally index (set_debugError (Some errorMsg) st)
  end.

(** *** Narration *)

(** [if (lastSpokenPageIndexRef.current !== pageIndex)
       { synth.current.cancel(); setActiveBubbleIndex(null); }
     lastSpokenPageIndexRef.current = pageIndex;
     window.speechSynthesis.cancel();] *)
Definition start_page (pageIndex : nat) (st : State) : State :=
  let st :=
    if bool_decide (lastSpokenPageIndex st = Some pageIndex) then st
    else set_activeBubbleIndex None (set_speech (speech st ++ [Cancel]) st) in
  set_speech (speech st ++ [Cancel]) (set_lastSpokenPageIndex (Some pageIndex) st).

Definition utterance_for (voices : list Voice) (t : string) : Utterance :=
  mkUtterance t 1 (pick_voice voices).

(** The second half of [speakCurrentPage]: bubble-based narration. *)
Definition speakBubbles (speaking : bool) (voices : list Voice) (st : State) : State :=
  let pageIndex := currentIndex st in
  match analysisCache st !! pageIndex with
  | None => st
  | Some currentPageData =>
      if negb (is_complete (status currentPageData)) then st
      else if Nat.eqb (length (bubbles currentPageData)) 0 then st
      else if bool_decide (lastSpokenPageIndex st = Some pageIndex) && speaking then st
      else
        let st := start_page pageIndex st in
        set_speech
          (speech st ++
           map (fun bubble => Speak (utterance_for voices (text bubble)))
               (bubbles currentPageData))
          st
  end.

(** [speakCurrentPage].  [speaking] is [synth.current.speaking] when the
    function runs and [voices] the voice list it ends up with, after
    waiting for it when it was empty.  A cached value that is truthy and
    not a string has no [trim]: the call throws and the first [catch]
    reports it. *)
Definition speakCurrentPage (speaking : bool) (voices : list Voice) (st : State) : State :=
  if negb (ttsEnabled st) || negb (isAnalysisEnabled st) then st
  else
    let pageIndex := currentIndex st in
    let cachedText := cached (ocrTextCache st) pageIndex in
    match cachedText with
    | VStr t =>
        if negb (string_empty t) && Nat.ltb 0 (String.length (trim t))
        then
          if bool_decide (lastSpokenPageIndex st = Some pageIndex) && speaking then st
          else
            let st := start_page pageIndex st in
            set_speech (speech st ++ [Speak (utterance_for voices t)]) st
        else speakBubbles speaking voices st
    | _ =>
        if truthy cachedText
        then set_debugError (Some "TTS OCR text error: cachedText.trim is not a function") st
        else speakBubbles speaking voices st
    end.

(** The utterances handed to the synthesiser so far. *)
Definition utterances (st : State) : list Utterance :=
  omap (fun a => match a with Speak u => Some u | Cancel => None end) (speech st).

(** The effect that follows a change of [ttsEnabled]: the silent
    utterance that unlocks the speech engine when narration is on. *)
Definition unlock_effect (st : State) : State :=
  if ttsEnabled st then set_speech (speech st ++ [Speak unlockMsg]) st else st.

(** The effect that follows a change of [ttsEnabled] or of
    [isAnalysisEnabled]: the cancellation when either switch is off. *)
Definition switch_effect (st : State) : State :=
  if negb (ttsEnabled st) || negb (isAnalysisEnabled st)
  then set_lastSpokenPageIndex None
         (set_activeBubbleIndex None (set_speech (speech st ++ [Cancel]) st))
  else st.

(** *** The session as a transition system *)

(** What can happen to the component: a call of one of its functions, or
    the resumption of a call that is waiting. *)
Inductive Event : Type :=
| SetCurrentIndex (i : nat)
| SetIsAnalysisEnabled
| SetTtsEnabled (b : bool)
| CallSpeakCurrentPage (speaking : bool) (voices : list Voice)
| CallPreloadBatch (batchIndex : nat)
| ImageLoaded (i : nat)
| PreloadSettled (batchIndex : nat)
| CallAnalyzeBatch (batchIndex : nat)
| ImagesConverted (batchIndex : nat) (converted : outcome (list string))
| AnalysisReturned (batchIndex : nat) (base64Images : list string) (response : Ocr.reply)
| CallRequestOCR (index : nat) (seen : gmap nat value)
| OcrSettled (index : nat) (urls : list string) (merged : outcome string)
    (response : Ocr.reply).

(** One transition; [None] when the event cannot happen in the state (a
    resumption without the call that waits for it). *)
Definition step (st : State) (ev : Event) : option State :=
  match ev with
  | SetCurrentIndex i => Some (set_currentIndex i st)
  | SetIsAnalysisEnabled =>
      if isAnalysisEnabled st then Some st
      else Some (switch_effect (set_isAnalysisEnabled true st))
  | SetTtsEnabled b =>
      if Bool.eqb b (ttsEnabled st) then Some st
      else Some (switch_effect (unlock_effect (set_ttsEnabled b st)))
  | CallSpeakCurrentPage speaking voices => Some (speakCurrentPage speaking voices st)
  | CallPreloadBatch batchIndex => Some (preloadBatch batchIndex st)
  | ImageLoaded i => image_onload i st
  | PreloadSettled batchIndex =>
      if is_waiting (PreloadWaiting batchIndex) st
      then Some (preloadBatch_settled batchIndex st)
      else None
  | CallAnalyzeBatch batchIndex => Some (analyzeBatch batchIndex st)
  | ImagesConverted batchIndex converted =>
      if is_waiting (AnalyzeConverting batchIndex) st && one_per_page batchIndex converted
      then Some (analyzeBatch_converted batchIndex converted st)
      else None
  | AnalysisReturned batchIndex base64Images response =>
      if is_waiting (AnalyzeWaiting batchIndex base64Images) st
      then analyzeBatch_returned batchIndex base64Images response st
      else None
  | CallRequestOCR index seen => Some (requestOCRForPage index seen st)
  | OcrSettled index urls merged response =>
      if is_waiting (OcrWaiting index urls) st
      then Some (requestOCRForPage_settled index urls merged response st)
      else None
  end.

(** A sequence of transitions. *)
Fixpoint run (st : State) (evs : list Event) : option State :=
  match evs with
  | [] => Some st
  | ev :: evs' =>
      match step st ev with
      | Some st' => run st' evs'
      | None => None
      end
  end.

(** The states a session can be in. *)
Definition reachable (st : State) : Prop :=
  exists evs, run initial evs = Some st.

End Session.

(** *** Navigation and the triggers of the batches *)

Section Triggers.

Variable pages : list string.

(** [handleNext] and [handlePrev], the updaters given to
    [setCurrentIndex]; [n] is [manga.pages.length]. *)
Definition handleNext (n prev : Z) : Z := Z.min (prev + 1) (n - 1).

Definition handlePrev (prev : Z) : Z := Z.max (prev - 1) 0.

(** The index after the key [key] is pressed: the arrows and the space
    bar turn the page, every other key leaves it. *)
Definition handleKeyDown (n : Z) (key : string) (prev : Z) : Z :=
  if String.eqb key "ArrowRight" || String.eqb key " " then handleNext n prev
  else if String.eqb key "ArrowLeft" then handlePrev prev
  else prev.

(** The trigger effect: the batch preloaded at once, and the batch whose
    preload is set for half a second later, if it has a page. *)
Definition trigger (currentIndex : nat) : nat * option nat :=
  let currentBatch := currentIndex / BATCH_SIZE in
  let nextBatch := currentBatch + 1 in
  (currentBatch,
   if Nat.ltb (nextBatch * BATCH_SIZE) (length pages) then Some nextBatch else None).

(** The look-ahead effect: the pages among the next three for which an
    image is created. *)
Definition lookahead (st : State) : list nat :=
  List.filter
    (fun idx =>
       match pages !! idx with
       | Some url => negb (string_empty url) && negb (bool_decide (idx ∈ preloadedImages st))
       | None => false
       end)
    [currentIndex st + 1; currentIndex st + 2; currentIndex st + 3].




(** The extract button is enabled when [!ocrTextCache[currentIndex]]. *)
Definition extractEnabled (st : State) : bool :=
  negb (truthy (cached (ocrTextCache st) (currentIndex st))).

End Triggers.

End Reader.

Import MiniJSON Ocr Reader.

(** ** Vocabulary of the properties *)

(** No character of the pattern [p] matches the character [c]. *)
Fixpoint avoids (ci : bool) (p : string) (c : ascii) : bool :=
  match p with
  | EmptyString => true
  | String a p' => negb (char_eq ci a c) && avoids ci p' c
  end.

(** The line feed, and a response wrapped in a fenced block. *)
Definition LF : ascii := "010"%char.

Definition fenced (t : string) : string :=
  "```json" +:+ String LF (t +:+ String LF "```").

(** Three pages, and the response of the scenario of the text cache. *)
Definition three_pages : list string := ["page0.png"; "page1.png"; "page2.png"].

Definition hello_world : string :=
  "[" +:+ quoted "Hello" +:+ "," +:+ quoted "" +:+ "," +:+ quoted "World" +:+ "]".

(** A response from which no text can be read: no text at all, a text that
    does not parse, or a value that is not an array. *)
Definition unusable (JSON_parse : string -> outcome value) (text : option string) : Prop :=
  no_text text = true \/
  match parsedResponse JSON_parse (text_of text) with
  | Throws _ => True
  | Returns parsed => isArray parsed = false
  end.

Definition throws {A : Type} (r : outcome A) : Prop :=
  exists msg, r = Throws msg.

(** [performBatchedOCR] throws on every unusable response. *)
Definition never_silently_empty (JSON_parse : string -> outcome value) : Prop :=
  forall urls merged text,
    unusable JSON_parse text ->
    throws (performBatchedOCR JSON_parse urls merged (Returns text)).

(** The three boxes of the ordering example, as [ymin, xmin, ymax, xmax]. *)
Definition bubbleA : SpeechBubble := mkBubble "A" (mkBox 10 300 60 400).
Definition bubbleB : SpeechBubble := mkBubble "B" (mkBox 15 100 65 200).
Definition bubbleC : SpeechBubble := mkBubble "C" (mkBox 500 50 550 150).

(** [l] is in the order of the comparison function: no element compares
    after a later one. *)
Fixpoint ordered {A : Type} (cmp : A -> A -> Z) (l : list A) : Prop :=
  match l with
  | [] => True
  | x :: l' => Forall (fun y => (cmp x y <= 0)%Z) l' /\ ordered cmp l'
  end.

(** The transitions that end a vision batch: the failure of the
    conversions, which runs the [catch] branch, and the return of the
    analysis. *)
Definition is_batch_failure (ev : Event) : bool :=
  match ev with
  | ImagesConverted _ (Throws _) => true
  | _ => false
  end.

Definition is_batch_success (ev : Event) : bool :=
  match ev with
  | AnalysisReturned _ _ _ => true
  | _ => false
  end.

(** No transition of a session changes an entry whose status is
    [complete]. *)
Definition complete_is_final (pages : list string)
    (JSON_parse : string -> outcome value) : Prop :=
  forall st ev st' i entry,
    reachable pages JSON_parse st ->
    step pages JSON_parse st ev = Some st' ->
    analysisCache st !! i = Some entry ->
    status entry = complete ->
    analysisCache st' !! i = Some entry.

(** A response with one bubble on the first of three pages, and the run of
    a vision batch that receives it. *)
Definition one_bubble_response : string :=
  "[{" +:+ quoted "bubbles" +:+ ":[{" +:+ quoted "text" +:+ ":" +:+ quoted "Hi" +:+ ","
  +:+ quoted "box_2d" +:+ ":[10,300,60,400]}]},{},{}]".

Definition three_images : list string := ["img0"; "img1"; "img2"].

Definition analyse_first_batch (response : string) : list Event :=
  [CallAnalyzeBatch 0;
   ImagesConverted 0 (Returns three_images);
   AnalysisReturned 0 three_images (Returns (Some response))].

(** The state of a session on three pages after such a batch, and the
    state in which a second analysis of the batch waits for its results. *)
Definition analysed : State :=
  default initial
    (run three_pages MiniJSON.parse initial (analyse_first_batch one_bubble_response)).

Definition reanalysing : State :=
  default initial
    (run three_pages MiniJSON.parse analysed
       [CallAnalyzeBatch 0; ImagesConverted 0 (Returns three_images)]).

(** Three boxes on which the comparison function runs in a circle: each
    is within 50 of the next, the first and the last are not. *)
Definition bubbleP : SpeechBubble := mkBubble "P" (mkBox 0 0 40 100).
Definition bubbleQ : SpeechBubble := mkBubble "Q" (mkBox 40 10 80 110).
Definition bubbleR : SpeechBubble := mkBubble "R" (mkBox 80 20 120 120).

(** The batch index a suspended call holds in [processingQueue]. *)
Definition vision_key (t : Task) : option nat :=
  match t with
  | PreloadWaiting b | AnalyzeConverting b | AnalyzeWaiting b _ => Some b
  | OcrWaiting _ _ => None
  end.

Definition vision_keys (ts : list Task) : list nat := omap vision_key ts.

(** [processingQueue] holds exactly the batch indices of the suspended
    calls of [preloadBatch] and [analyzeBatch], and no two of these calls
    have the same index. *)
Definition queue_tracks_waiting (st : State) : Prop :=
  NoDup (vision_keys (waiting st)) /\
  forall b, b ∈ processingQueue st <-> b ∈ vision_keys (waiting st).

Definition two_pages : list string := ["page0.png"; "page1.png"].

(** The number of remote calls made so far for the OCR batch that starts
    at page [k], and the number of its requests that are still waiting. *)
Definition ocr_calls (k : nat) (st : State) : nat :=
  length (List.filter (fun c => match c with
                                | OcrCall batchStart _ => Nat.eqb batchStart k
                                | VisionCall _ _ => false
                                end) (remoteCalls st)).

Definition ocr_waiting (k : nat) (st : State) : nat :=
  length (List.filter (fun t => match t with
                                | OcrWaiting index _ => Nat.eqb index k
                                | _ => false
                                end) (waiting st)).


(** Narration stays silent on a page whose cached text is the empty
    string. *)
Definition silent_on_empty_text : Prop :=
  forall st speaking voices,
    ocrTextCache st !! currentIndex st = Some (VStr "") ->
    utterances (speakCurrentPage speaking voices st) = utterances st.

(** A session on three pages, page 0 on display: the first vision batch is
    complete with one bubble on page 0, the OCR batch of page 0 has
    returned no text for any page, analysis and narration are on. *)
Definition narrating : State :=
  default initial
    (run three_pages MiniJSON.parse analysed
       [CallRequestOCR 0 ∅;
        OcrSettled 0 three_pages (Returns "merged") (Returns (Some "[]"));
        SetIsAnalysisEnabled;
        SetTtsEnabled true]).

(** The number of backticks at the start of [s]. *)
Fixpoint leading_backticks (s : string) : nat :=
  match s with
  | EmptyString => 0
  | String c s' => if Ascii.eqb "`"%char c then S (leading_backticks s') else 0
  end.

(** The fenced blocks a model also writes: the tag in capitals, no tag. *)
Definition fenced_capitals (t : string) : string :=
  "```JSON" +:+ String LF (t +:+ String LF "```").

Definition fenced_plain (t : string) : string :=
  "```" +:+ String LF (t +:+ String LF "```").

(** [s] has no comma. *)
Fixpoint no_comma (s : string) : bool :=
  match s with
  | EmptyString => true
  | String c s' => negb (Ascii.eqb c ","%char) && no_comma s'
  end.

(** A value that reads as [null] or [undefined]. *)
Definition nullish (v : value) : bool :=
  match v with
  | VUndefined | VNull => true
  | _ => false
  end.

(** The events by which the user asks for a remote call: the click on
    the analysis button and the click on the extract button. *)
Definition is_user_request (ev : Event) : bool :=
  match ev with
  | CallAnalyzeBatch _ | CallRequestOCR _ _ => true
  | _ => false
  end.

(** The task that an event suspends, if it suspends one, and the task that
    it resumes. *)
Definition suspends (pages : list string) (ev : Event) : option Task :=
  match ev with
  | CallPreloadBatch b => Some (PreloadWaiting b)
  | CallAnalyzeBatch b => Some (AnalyzeConverting b)
  | ImagesConverted b (Returns imgs) => Some (AnalyzeWaiting b imgs)
  | CallRequestOCR index _ => Some (OcrWaiting index (slice3 pages index))
  | _ => None
  end.

Definition resumes (ev : Event) : option Task :=
  match ev with
  | PreloadSettled b => Some (PreloadWaiting b)
  | ImagesConverted b _ => Some (AnalyzeConverting b)
  | AnalysisReturned b imgs _ => Some (AnalyzeWaiting b imgs)
  | OcrSettled index urls _ _ => Some (OcrWaiting index urls)
  | _ => None
  end.

(** The events of the OCR batches, and the events that write the
    analysis cache. *)
Definition is_ocr_event (ev : Event) : bool :=
  match ev with
  | CallRequestOCR _ _ | OcrSettled _ _ _ _ => true
  | _ => false
  end.

Definition writes_analysis (ev : Event) : bool :=
  match ev with
  | CallPreloadBatch _ | CallAnalyzeBatch _ | ImagesConverted _ _
  | AnalysisReturned _ _ _ => true
  | _ => false
  end.

(** What holds of the analysis cache in a session: an entry that is not
    complete has no bubbles. *)
Definition bubbles_only_when_complete (cache : gmap nat PageAnalysisEntry) : Prop :=
  forall j entry, cache !! j = Some entry -> status entry <> complete -> bubbles entry = [].

(** What holds of the OCR batches in a session: each suspended request
    carries the pages that start at its key, and the text cache holds
    entries for pages of the manga only, each the empty string or a truthy
    value. *)
Definition texts_sound (pages : list string) (st : State) : Prop :=
  (forall index urls, OcrWaiting index urls ∈ waiting st -> urls = slice3 pages index) /\
  (forall j v, ocrTextCache st !! j = Some v ->
               j < length pages /\ (v = VStr "" \/ truthy v = true)).

(** What holds of a session without a request of the user: no remote
    call, and no suspended call but those of [preloadBatch]. *)
Definition quiet (st : State) : Prop :=
  remoteCalls st = [] /\
  forall t, t ∈ waiting st -> exists b, t = PreloadWaiting b.

(** The events that lead a session on three pages to [narrating] and to
    [reanalysing]. *)
Definition to_narrating : list Event :=
  (analyse_first_batch one_bubble_response
   ++ [CallRequestOCR 0 ∅;
       OcrSettled 0 three_pages (Returns "merged") (Returns (Some "[]"));
       SetIsAnalysisEnabled;
       SetTtsEnabled true])%list.

Definition to_reanalysing : list Event :=
  (analyse_first_batch one_bubble_response
   ++ [CallAnalyzeBatch 0; ImagesConverted 0 (Returns three_images)])%list.



(** * Properties *)

(** ** Strings: removing the fences and trimming *)

Section Strings.

Lemma matches_at_length ci p s :
  matches_at ci p s = true -> String.length p <= String.length s.
Proof.
  revert s. induction p as [|a p IH]; intros [|b s]; simpl; try lia; try discriminate.
  intros [_ H]%andb_prop. apply IH in H. lia.
Qed.

Lemma matches_at_before ci p c s r :
  p <> EmptyString -> avoids ci p c = true ->
  matches_at ci p (s +:+ String c r) = matches_at ci p s.
Proof.
  intros Hp. revert s. induction p as [|a p IH]; [done|].
  intros s [Ha Hav]%andb_prop. apply negb_true_iff in Ha.
  destruct s as [|b s]; simpl.
  - by rewrite Ha.
  - destruct p as [|a' p'].
    + by destruct (char_eq ci a b).
    + rewrite IH; [done|done|done].
Qed.

Lemma remove_all_from_before ci p c r s k :
  p <> EmptyString -> avoids ci p c = true -> k <= String.length s ->
  remove_all_from ci p k (s +:+ String c r)
  = remove_all_from ci p k s +:+ String c (remove_all_from ci p 0 r).
Proof.
  intros Hp Hav. revert k. induction s as [|b s IH]; intros k Hk.
  - simpl in Hk. replace k with 0 by lia. simpl.
    destruct p as [|a p]; [done|]. simpl in Hav. apply andb_prop in Hav as [Ha _].
    apply negb_true_iff in Ha. simpl. by rewrite Ha.
  - destruct k as [|k].
    + change (String b s +:+ String c r) with (String b (s +:+ String c r)).
      cbn [remove_all_from].
      change (String b (s +:+ String c r)) with (String b s +:+ String c r).
      rewrite matches_at_before by done.
      destruct (matches_at ci p (String b s)) eqn:Hm.
      * apply matches_at_length in Hm. simpl in Hm. rewrite IH by lia. done.
      * rewrite IH by lia. done.
    + simpl in Hk. simpl. rewrite IH by lia. done.
Qed.

Lemma remove_all_before ci p c s r :
  p <> EmptyString -> avoids ci p c = true ->
  remove_all ci p (s +:+ String c r)
  = remove_all ci p s +:+ String c (remove_all ci p r).
Proof. intros. unfold remove_all. apply remove_all_from_before; [done|done|lia]. Qed.

Lemma trim_end_whitespace c s :
  is_whitespace c = true ->
  trim_end (s +:+ String c EmptyString) = trim_end s.
Proof.
  intros Hc. induction s as [|b s IH]; simpl.
  - by rewrite Hc.
  - by rewrite IH.
Qed.

Lemma trim_whitespace_end c s :
  is_whitespace c = true ->
  trim (s +:+ String c EmptyString) = trim s.
Proof.
  intros Hc. unfold trim. induction s as [|b s IH]; simpl.
  - by rewrite Hc.
  - destruct (is_whitespace b); [done|].
    change (String b (s +:+ String c EmptyString)) with (String b s +:+ String c EmptyString).
    by apply trim_end_whitespace.
Qed.

Lemma trim_whitespace_start c s :
  is_whitespace c = true -> trim (String c s) = trim s.
Proof. intros Hc. unfold trim. simpl. by rewrite Hc. Qed.

End Strings.

Lemma cleanedResponse_fenced t :
  cleanedResponse (fenced t) = cleanedResponse t.
Proof.
  unfold cleanedResponse, fenced.
  assert (H1 : remove_all true "```json" ("```json" +:+ String LF (t +:+ String LF "```"))
               = String LF (remove_all true "```json" t +:+ String LF "```")).
  { unfold remove_all. cbn -[String.append remove_all_from].
    change (String LF (remove_all_from true "```json" 0 (t +:+ String LF "```"))
            = String LF (remove_all_from true "```json" 0 t +:+ String LF "```")).
    f_equal. by rewrite remove_all_from_before; [|done|done|lia]. }
  rewrite H1.
  set (u := remove_all true "```json" t).
  assert (H2 : remove_all false "```" (String LF (u +:+ String LF "```"))
               = String LF (remove_all false "```" u +:+ String LF EmptyString)).
  { unfold remove_all at 1. cbn [remove_all_from matches_at char_eq].
    f_equal. fold (remove_all false "```" (u +:+ String LF "```")).
    by rewrite remove_all_before. }
  rewrite H2, trim_whitespace_start by done.
  by apply trim_whitespace_end.
Qed.

(** ** [ocr.ts]: the responses of the model *)

(** C9: for every response text [t] (in particular every JSON array text),
    the response wrapped in a fenced block and the bare response are
    cleaned to the same string, so that [JSON.parse] is applied to the same
    text and [parsed] is the same, whatever the parser does. *)
Theorem fenced_response_parses_identically (JSON_parse : string -> outcome value) (t : string) :
  cleanedResponse (fenced t) = cleanedResponse t /\
  parsedResponse JSON_parse (fenced t) = parsedResponse JSON_parse t.
Proof.
  split; [apply cleanedResponse_fenced|].
  unfold parsedResponse. by rewrite cleanedResponse_fenced.
Qed.

(** When the bare response is not empty and parses, the whole of
    [performBatchedOCR] agrees on the two responses. *)
Lemma performBatchedOCR_fenced (JSON_parse : string -> outcome value) urls merged t v :
  t <> EmptyString ->
  parsedResponse JSON_parse t = Returns v ->
  performBatchedOCR JSON_parse urls merged (Returns (Some (fenced t)))
  = performBatchedOCR JSON_parse urls merged (Returns (Some t)).
Proof.
  intros Ht Hv.
  assert (Hp : parsedResponse JSON_parse (fenced t) = parsedResponse JSON_parse t).
  { unfold parsedResponse. by rewrite cleanedResponse_fenced. }
  unfold performBatchedOCR. destruct merged as [m|msg]; [|done].
  cbn [mbind outcome_bind text_of].
  replace (no_text (Some (fenced t))) with false by done.
  replace (no_text (Some t)) with false by (by destruct t).
  by rewrite Hp, Hv.
Qed.

Example performBatchedOCR_fenced_hello :
  performBatchedOCR MiniJSON.parse three_pages (Returns "merged")
    (Returns (Some (fenced hello_world)))
  = Returns [VStr "Hello"; VStr ""; VStr "World"].
Proof. vm_compute. reflexivity. Qed.

Section AnalyzeMangaPages.

Variable JSON_parse : string -> outcome value.

Lemma length_empty_results imgs : length (empty_results imgs) = length imgs.
Proof. unfold empty_results. by rewrite length_map. Qed.

Lemma mapM_outcome_length {A B : Type} (f : A -> outcome B) l r :
  mapM f l = Returns r -> length r = length l.
Proof.
  revert r. induction l as [|a l IH]; intros r; simpl.
  - intros [= <-]. done.
  - destruct (f a) as [b|msg]; simpl; [|done].
    destruct (mapM f l) as [bs|msg]; simpl; [|done].
    intros [= <-]. simpl. f_equal. by apply IH.
Qed.

(** The promise of [analyzeMangaPages] never rejects (its result is a plain
    list), and the list has one entry per image or one entry per element of
    the array of the response. *)
Lemma analyzeMangaPages_length imgs response :
  length (analyzeMangaPages JSON_parse imgs response) = length imgs \/
  exists text items,
    response = Returns (Some text) /\ JSON_parse text = Returns (VArr items) /\
    length (analyzeMangaPages JSON_parse imgs response) = length items.
Proof.
  unfold analyzeMangaPages.
  destruct response as [text|msg]; [|left; apply length_empty_results].
  destruct (no_text text) eqn:Hno; [left; apply length_empty_results|].
  destruct text as [text|]; [|done]. simpl.
  destruct (JSON_parse text) as [parsed|msg] eqn:Hp; [|left; apply length_empty_results].
  destruct parsed; try (left; apply length_empty_results).
  destruct (mapM page_bubbles items) as [results|msg] eqn:Hm;
    [|left; apply length_empty_results].
  right. exists text, items. repeat split; try done. by eapply mapM_outcome_length.
Qed.

(** A rejected request, an absent or empty text, a text that does not
    parse and a value that is not an array all give one empty result per
    image. *)
Lemma analyzeMangaPages_degrades imgs response :
  match response with
  | Throws _ => True
  | Returns text =>
      no_text text = true \/
      match JSON_parse (text_of text) with
      | Throws _ => True
      | Returns parsed => isArray parsed = false
      end
  end ->
  analyzeMangaPages JSON_parse imgs response = empty_results imgs.
Proof.
  unfold analyzeMangaPages. destruct response as [text|msg]; [|done].
  intros [Hno|Hbad]; [by rewrite Hno|].
  destruct (no_text text); [done|].
  destruct (JSON_parse (text_of text)) as [parsed|msg]; [|done].
  by destruct parsed.
Qed.

End AnalyzeMangaPages.

(** C3: [analyzeMangaPages] keeps the length of the array of the response
    instead of the number of images: for four images and a response with one
    page it returns one bubble set, and for two images and a response with
    three pages it returns three. *)
Theorem analyzeMangaPages_keeps_response_length :
  analyzeMangaPages MiniJSON.parse ["img0"; "img1"; "img2"; "img3"]
    (Returns (Some "[{}]")) = [VArr []] /\
  analyzeMangaPages MiniJSON.parse ["img0"; "img1"] (Returns (Some "[{},{},{}]"))
  = [VArr []; VArr []; VArr []].
Proof. split; vm_compute; reflexivity. Qed.

(** C4 as stated fails: an empty text, an absent text and a value that is
    not an array are all answered with one empty string per page, and
    nothing is thrown. *)
Lemma performBatchedOCR_silent_empty_strings :
  performBatchedOCR MiniJSON.parse three_pages (Returns "merged") (Returns (Some ""))
  = Returns [VStr ""; VStr ""; VStr ""] /\
  performBatchedOCR MiniJSON.parse three_pages (Returns "merged") (Returns None)
  = Returns [VStr ""; VStr ""; VStr ""] /\
  performBatchedOCR MiniJSON.parse three_pages (Returns "merged") (Returns (Some "{}"))
  = Returns [VStr ""; VStr ""; VStr ""] /\
  ~ never_silently_empty MiniJSON.parse.
Proof.
  split; [vm_compute; reflexivity|].
  split; [vm_compute; reflexivity|].
  split; [vm_compute; reflexivity|].
  intros H.
  destruct (H three_pages (Returns "merged") (Some "")) as [msg Hmsg].
  - left. reflexivity.
  - vm_compute in Hmsg. discriminate.
Qed.

Lemma length_imap_urls {A B : Type} (f : nat -> A -> B) (l : list A) :
  length (imap f l) = length l.
Proof. revert f. induction l as [|a l IH]; intros f; simpl; [done|]. by rewrite IH. Qed.

(** When [performBatchedOCR] returns, it returns one entry per page. *)
Lemma performBatchedOCR_length (JSON_parse : string -> outcome value) urls merged response texts :
  performBatchedOCR JSON_parse urls merged response = Returns texts ->
  length texts = length urls.
Proof.
  unfold performBatchedOCR.
  destruct merged as [image|msg]; [|done].
  destruct response as [text|msg]; [|done]. cbn [mbind outcome_bind].
  destruct (no_text text).
  { intros [= <-]. unfold empty_texts. by rewrite length_map. }
  destruct (parsedResponse JSON_parse (text_of text)) as [parsed|message]; [|done].
  destruct parsed; intros [= <-];
    try (unfold empty_texts; by rewrite length_map).
  apply length_imap_urls.
Qed.

(** C4, amended: [performBatchedOCR] returns one entry per requested page
    or throws; an error of the merge or of the request is thrown again; a
    text that does not parse once the fences are removed throws the
    descriptive [JSON parse failed] error; an absent or empty text and a
    value that is not an array give one empty string per page; an array
    gives its entries, the missing and falsy ones replaced by the empty
    string. *)
Theorem performBatchedOCR_outcomes (JSON_parse : string -> outcome value)
    (urls : list string) (merged : outcome string) (response : reply) :
  (forall texts,
      performBatchedOCR JSON_parse urls merged response = Returns texts ->
      length texts = length urls) /\
  (forall msg, merged = Throws msg ->
      performBatchedOCR JSON_parse urls merged response = Throws msg) /\
  (forall image msg, merged = Returns image -> response = Throws msg ->
      performBatchedOCR JSON_parse urls merged response = Throws msg) /\
  (forall image text, merged = Returns image -> response = Returns text ->
      (no_text text = true ->
       performBatchedOCR JSON_parse urls merged response = Returns (empty_texts urls)) /\
      (no_text text = false ->
       forall message, parsedResponse JSON_parse (text_of text) = Throws message ->
       performBatchedOCR JSON_parse urls merged response
       = Throws (parse_failure message (text_of text))) /\
      (no_text text = false ->
       forall parsed, parsedResponse JSON_parse (text_of text) = Returns parsed ->
       isArray parsed = false ->
       performBatchedOCR JSON_parse urls merged response = Returns (empty_texts urls)) /\
      (no_text text = false ->
       forall items, parsedResponse JSON_parse (text_of text) = Returns (VArr items) ->
       performBatchedOCR JSON_parse urls merged response
       = Returns (imap (fun i _ => or_else (index items i) (VStr "")) urls))).
Proof.
  split; [|unfold performBatchedOCR; split; [|split]].
  - intros texts. apply performBatchedOCR_length.
  - by intros msg ->.
  - by intros image msg -> ->.
  - intros image text -> ->. cbn [mbind outcome_bind].
    repeat split.
    + by intros ->.
    + intros -> message ->. done.
    + intros -> parsed -> Hna. by destruct parsed.
    + intros -> items ->. done.
Qed.

Lemma performBatchedOCR_outcomes_witness :
  performBatchedOCR MiniJSON.parse three_pages (Returns "merged") (Returns (Some "oops"))
  = Throws (parse_failure "Unexpected token or end of JSON input" "oops").
Proof.
  destruct (performBatchedOCR_outcomes MiniJSON.parse three_pages (Returns "merged")
              (Returns (Some "oops"))) as (_ & _ & _ & H).
  destruct (H "merged" (Some "oops") eq_refl eq_refl) as (_ & Hbad & _).
  apply Hbad; reflexivity.
Defined.

(** ** [Reader.tsx]: the analysis cache *)

Section AnalysisCache.

Implicit Types (cache : gmap nat PageAnalysisEntry) (i j : nat).

Lemma mark_complete s cache i j entry :
  cache !! j = Some entry -> status entry = complete ->
  mark s cache i !! j = Some entry.
Proof.
  intros Hj Hc. unfold mark.
  destruct (decide (i = j)) as [->|Hne].
  - rewrite Hj, Hc. simpl. done.
  - destruct (cache !! i) as [e|]; [destruct (is_complete (status e))|];
      rewrite ?lookup_insert_ne; done.
Qed.

Lemma mark_other s cache i j :
  i <> j -> mark s cache i !! j = cache !! j.
Proof.
  intros Hne. unfold mark.
  destruct (cache !! i) as [e|]; [destruct (is_complete (status e))|];
    rewrite ?lookup_insert_ne; done.
Qed.

Lemma foldl_mark_complete s l cache j entry :
  cache !! j = Some entry -> status entry = complete ->
  foldl (mark s) cache l !! j = Some entry.
Proof.
  revert cache. induction l as [|i l IH]; intros cache Hj Hc; simpl; [done|].
  apply IH; [|done]. by apply mark_complete.
Qed.

Lemma foldl_mark_outside s l cache j :
  j ∉ l -> foldl (mark s) cache l !! j = cache !! j.
Proof.
  revert cache. induction l as [|i l IH]; intros cache Hj; simpl; [done|].
  apply not_elem_of_cons in Hj as [Hne Hj].
  rewrite IH by done. by apply mark_other.
Qed.

(** The two marking passes leave a complete entry as it is. *)
Lemma mark_range_complete s startPage endPage cache j entry :
  cache !! j = Some entry -> status entry = complete ->
  mark_range s startPage endPage cache !! j = Some entry.
Proof. apply foldl_mark_complete. Qed.

Lemma elem_of_page_range i startPage endPage :
  i ∈ page_range startPage endPage <-> startPage <= i < endPage.
Proof. unfold page_range. rewrite elem_of_seq. lia. Qed.

(** They touch the pages of the range only. *)
Lemma mark_range_outside s startPage endPage cache j :
  ~ (startPage <= j < endPage) ->
  mark_range s startPage endPage cache !! j = cache !! j.
Proof.
  intros Hj. apply foldl_mark_outside. by rewrite elem_of_page_range.
Qed.

Lemma mark_failed_outside startPage endPage cache j :
  ~ (startPage <= j < endPage) ->
  mark_failed startPage endPage cache !! j = cache !! j.
Proof.
  rewrite <- elem_of_page_range. unfold mark_failed.
  generalize (page_range startPage endPage) as l. intros l. revert cache.
  induction l as [|i l IH]; intros cache Hj; simpl; [done|].
  apply not_elem_of_cons in Hj as [Hne Hj].
  rewrite IH by done. by rewrite lookup_insert_ne.
Qed.

Lemma store_results_before absoluteIndex batchResults cache j :
  j < absoluteIndex ->
  store_results absoluteIndex batchResults cache !! j = cache !! j.
Proof.
  revert absoluteIndex cache.
  induction batchResults as [|bs rest IH]; intros a cache Hj; simpl; [done|].
  rewrite IH by lia. rewrite lookup_insert_ne by lia. done.
Qed.

(** The success updater writes one complete entry per result, from
    [startPage] on, whatever the number of results. *)
Lemma store_results_at absoluteIndex batchResults cache r bs :
  batchResults !! r = Some bs ->
  store_results absoluteIndex batchResults cache !! (absoluteIndex + r)
  = Some (mkEntry (sort compareBubbles bs) complete).
Proof.
  revert absoluteIndex cache r.
  induction batchResults as [|bs' rest IH]; intros a cache r Hr; [done|].
  destruct r as [|r]; simpl in *.
  - injection Hr as ->. rewrite store_results_before by lia.
    replace (a + 0) with a by lia. by rewrite lookup_insert_eq.
  - replace (a + S r) with (S a + r) by lia. by apply IH.
Qed.

Lemma store_results_after absoluteIndex batchResults cache j :
  absoluteIndex + length batchResults <= j ->
  store_results absoluteIndex batchResults cache !! j = cache !! j.
Proof.
  revert absoluteIndex cache.
  induction batchResults as [|bs rest IH]; intros a cache Hj; simpl in *; [done|].
  rewrite IH by lia. rewrite lookup_insert_ne by lia. done.
Qed.

(** It keeps the status of a complete entry. *)
Lemma store_results_complete absoluteIndex batchResults cache j entry :
  cache !! j = Some entry -> status entry = complete ->
  exists entry', store_results absoluteIndex batchResults cache !! j = Some entry'
                 /\ status entry' = complete.
Proof.
  intros Hj Hc.
  destruct (decide (absoluteIndex <= j < absoluteIndex + length batchResults)) as [Hin|Hout].
  - destruct (lookup_lt_is_Some_2 batchResults (j - absoluteIndex)) as [bs Hbs]; [lia|].
    exists (mkEntry (sort compareBubbles bs) complete). split; [|reflexivity].
    replace j with (absoluteIndex + (j - absoluteIndex)) at 1 by lia.
    by apply store_results_at.
  - exists entry. split; [|done].
    destruct (decide (j < absoluteIndex)).
    + by rewrite store_results_before.
    + by rewrite store_results_after by lia.
Qed.

End AnalysisCache.

(** ** [Reader.tsx]: the order of the bubbles *)

Lemma insert_sorted_perm {A : Type} (cmp : A -> A -> Z) x l :
  Permutation (insert_sorted cmp x l) (x :: l).
Proof.
  induction l as [|y l IH]; simpl; [done|].
  destruct (cmp x y <=? 0)%Z; [done|].
  rewrite IH. apply perm_swap.
Qed.

(** Sorting rearranges the bubbles and neither loses nor adds one. *)
Lemma sort_perm {A : Type} (cmp : A -> A -> Z) l :
  Permutation (sort cmp l) l.
Proof.
  induction l as [|x l IH]; simpl; [done|].
  rewrite insert_sorted_perm. by constructor.
Qed.

(** On the three boxes of the example the comparison function is a strict
    total order, so the order [A, B, C] is the only arrangement that agrees
    with it: every sorting algorithm gives it. *)
Lemma example_order_unique l :
  Permutation l [bubbleA; bubbleB; bubbleC] ->
  ordered compareBubbles l ->
  l = [bubbleA; bubbleB; bubbleC].
Proof.
  intros Hp%Permutation_sym%permutations_Permutation. cbn in Hp.
  intros Ho.
  repeat match goal with
         | H : _ ∈ _ :: _ |- _ => apply elem_of_cons in H as [->|H]
         | H : _ ∈ [] |- _ => by apply elem_of_nil in H
         end; try reflexivity; exfalso; cbn [ordered] in Ho;
    repeat match goal with
           | H : _ /\ _ |- _ => destruct H
           | H : Forall _ (_ :: _) |- _ => apply Forall_cons in H
           end;
    repeat match goal with
           | H : (_ <= _)%Z |- _ => first [ by (vm_compute in H; apply H) | clear H ]
           end.
Qed.

(** The comparison function is not an order on all boxes: [P] comes after
    [Q] and [Q] after [R], both by [xmin], yet [P] comes before [R] by
    [ymin]. *)
Remark compareBubbles_circle :
  (compareBubbles bubbleQ bubbleP < 0)%Z /\
  (compareBubbles bubbleR bubbleQ < 0)%Z /\
  (compareBubbles bubbleP bubbleR < 0)%Z.
Proof. repeat split. Qed.



(** The entries of the cache after the transitions that do not write it. *)
Lemma speakCurrentPage_analysisCache speaking voices st :
  analysisCache (speakCurrentPage speaking voices st) = analysisCache st.
Proof.
  unfold speakCurrentPage, speakBubbles, start_page.
  repeat (case_match; simpl; try done).
Qed.

Lemma switch_effect_analysisCache st :
  analysisCache (switch_effect st) = analysisCache st /\
  analysisCache (unlock_effect st) = analysisCache st.
Proof.
  unfold switch_effect, unlock_effect. split; repeat (case_match; simpl; try done).
Qed.

Lemma requestOCRForPage_analysisCache pages index seen st :
  analysisCache (requestOCRForPage pages index seen st) = analysisCache st.
Proof. unfold requestOCRForPage. repeat (case_match; simpl; try done). Qed.

Lemma requestOCRForPage_settled_analysisCache JSON_parse index urls merged response st :
  analysisCache (requestOCRForPage_settled JSON_parse index urls merged response st)
  = analysisCache st.
Proof. unfold requestOCRForPage_settled. repeat (case_match; simpl; try done). Qed.

(** C5 as stated fails: on three pages, once the first batch is complete
    with one bubble on page 0, a second analysis of the batch that succeeds
    replaces the bubbles of page 0 by the new ones, and a second analysis
    whose conversions fail turns the three pages to [error]. *)
Lemma complete_entry_overwritten :
  analysisCache analysed !! 0
  = Some (mkEntry [mkBubble "Hi" (mkBox 10 300 60 400)] complete) /\
  (run three_pages MiniJSON.parse analysed (analyse_first_batch "[{},{},{}]")
     ≫= fun st => analysisCache st !! 0)
  = Some (mkEntry [] complete) /\
  (run three_pages MiniJSON.parse analysed
     [CallAnalyzeBatch 0; ImagesConverted 0 (Throws "Failed to fetch")]
     ≫= fun st => analysisCache st !! 0)
  = Some (mkEntry [] error) /\
  ~ complete_is_final three_pages MiniJSON.parse.
Proof.
  split; [vm_compute; reflexivity|].
  split; [vm_compute; reflexivity|].
  split; [vm_compute; reflexivity|].
  intros H.
  specialize (H reanalysing
                (AnalysisReturned 0 three_images (Returns (Some "[{},{},{}]")))
                (default initial
                   (step three_pages MiniJSON.parse reanalysing
                      (AnalysisReturned 0 three_images (Returns (Some "[{},{},{}]")))))
                0 (mkEntry [mkBubble "Hi" (mkBox 10 300 60 400)] complete)).
  assert (Hfalse : analysisCache
            (default initial
               (step three_pages MiniJSON.parse reanalysing
                  (AnalysisReturned 0 three_images (Returns (Some "[{},{},{}]"))))) !! 0
          = Some (mkEntry [mkBubble "Hi" (mkBox 10 300 60 400)] complete)).
  { apply H.
    - exists (analyse_first_batch one_bubble_response
              ++ [CallAnalyzeBatch 0; ImagesConverted 0 (Returns three_images)])%list.
      vm_compute. reflexivity.
    - vm_compute. reflexivity.
    - vm_compute. reflexivity.
    - reflexivity. }
  vm_compute in Hfalse. discriminate.
Qed.

(** C5, amended: once the status of a page is [complete], every
    transition other than the failure of a batch leaves it [complete], and
    every transition other than the end of a batch, the two marking passes
    among them, leaves the whole entry as it is. *)
Theorem complete_stays_complete (pages : list string)
    (JSON_parse : string -> outcome value) (st st' : State) (ev : Event)
    (i : nat) (entry : PageAnalysisEntry) :
  step pages JSON_parse st ev = Some st' ->
  analysisCache st !! i = Some entry ->
  status entry = complete ->
  is_batch_failure ev = false ->
  exists entry',
    analysisCache st' !! i = Some entry' /\ status entry' = complete /\
    (is_batch_success ev = false -> entry' = entry).
Proof.
  intros Hstep Hi Hc Hfail.
  destruct ev as [n| |b|speaking voices|b|n|b|b|b converted|b imgs response
                 |index seen|index urls merged response]; simpl in Hstep.
  - injection Hstep as <-. by exists entry.
  - destruct (isAnalysisEnabled st); injection Hstep as <-;
      rewrite ?(proj1 (switch_effect_analysisCache _)); by exists entry.
  - destruct (Bool.eqb b (ttsEnabled st)); injection Hstep as <-;
      rewrite ?(proj1 (switch_effect_analysisCache _)),
        ?(proj2 (switch_effect_analysisCache _)); by exists entry.
  - injection Hstep as <-. rewrite speakCurrentPage_analysisCache. by exists entry.
  - injection Hstep as <-. exists entry. split; [|done].
    unfold preloadBatch. repeat case_match; simpl; try done.
    by apply mark_range_complete.
  - unfold image_onload in Hstep. repeat case_match; try done.
    injection Hstep as <-. by exists entry.
  - destruct (is_waiting _ st); [|done]. injection Hstep as <-. by exists entry.
  - injection Hstep as <-. exists entry. split; [|done].
    unfold analyzeBatch. case_match; simpl; try done.
    by apply mark_range_complete.
  - destruct (is_waiting _ st); [|done].
    destruct (one_per_page _ _ _); [|done]. injection Hstep as <-.
    destruct converted as [imgs|msg]; [|done]. by exists entry.
  - destruct (is_waiting _ st); [|done].
    unfold analyzeBatch_returned in Hstep.
    destruct (as_results _) as [batchResults|]; [|done]. simpl in Hstep.
    injection Hstep as <-. simpl.
    destruct (store_results_complete (b * BATCH_SIZE) batchResults _ _ _ Hi Hc)
      as (entry' & Hentry' & Hc').
    exists entry'. done.
  - injection Hstep as <-. rewrite requestOCRForPage_analysisCache. by exists entry.
  - destruct (is_waiting _ st); [|done]. injection Hstep as <-.
    rewrite requestOCRForPage_settled_analysisCache. by exists entry.
Qed.

Lemma complete_stays_complete_witness :
  exists entry',
    analysisCache (preloadBatch three_pages 0 analysed) !! 0 = Some entry' /\
    status entry' = complete /\
    (is_batch_success (CallPreloadBatch 0) = false ->
     entry' = mkEntry [mkBubble "Hi" (mkBox 10 300 60 400)] complete).
Proof.
  apply (complete_stays_complete three_pages MiniJSON.parse analysed
           (preloadBatch three_pages 0 analysed) (CallPreloadBatch 0) 0
           (mkEntry [mkBubble "Hi" (mkBox 10 300 60 400)] complete)).
  - reflexivity.
  - vm_compute. reflexivity.
  - reflexivity.
  - reflexivity.
Defined.

(** ** [Reader.tsx]: the in-flight set of the vision batches *)

Section ProcessingQueue.

Lemma vision_keys_app ts ts' :
  vision_keys (ts ++ ts') = (vision_keys ts ++ vision_keys ts')%list.
Proof. apply omap_app. Qed.

Lemma elem_of_vision_keys t ts b :
  t ∈ ts -> vision_key t = Some b -> b ∈ vision_keys ts.
Proof. intros Ht Hb. apply list_elem_of_omap. by exists t. Qed.

Lemma resume_other t ts :
  vision_key t = None -> vision_keys (resume t ts) = vision_keys ts.
Proof.
  intros Ht. induction ts as [|t' ts IH]; simpl; [done|].
  destruct (decide (t = t')) as [<-|Hne].
  - by rewrite Ht.
  - simpl. by rewrite IH.
Qed.

Lemma resume_vision t ts b :
  t ∈ ts -> vision_key t = Some b -> NoDup (vision_keys ts) ->
  NoDup (vision_keys (resume t ts)) /\
  forall k, k ∈ vision_keys (resume t ts) <-> k ∈ vision_keys ts /\ k <> b.
Proof.
  intros Ht Hb. induction ts as [|t' ts IH]; [by apply elem_of_nil in Ht|].
  simpl. destruct (decide (t = t')) as [<-|Hne].
  - rewrite Hb. intros [Hnotin Hnd]%NoDup_cons. split; [done|].
    intros k. rewrite elem_of_cons. split.
    + intros Hk. split; [by right|]. by intros ->.
    + intros [[->|Hk] Hkb]; done.
  - apply elem_of_cons in Ht as [->|Ht]; [done|].
    simpl. destruct (vision_key t') as [b'|] eqn:Hb'.
    + intros [Hnotin Hnd]%NoDup_cons.
      destruct (IH Ht Hnd) as [IHnd IHk].
      assert (b' <> b).
      { intros ->. apply Hnotin. by eapply elem_of_vision_keys. }
      split.
      * apply NoDup_cons. split; [|done]. rewrite IHk. tauto.
      * intros k. rewrite !elem_of_cons, IHk. split.
        -- intros [->|[Hk Hkb]]; [by split; [left|]|]. split; [by right|done].
        -- intros [[->|Hk] Hkb]; [by left|by right].
    + intros Hnd. by apply IH.
Qed.

Implicit Types st : State.

Lemma tracks_same st st' :
  waiting st' = waiting st -> processingQueue st' = processingQueue st ->
  queue_tracks_waiting st -> queue_tracks_waiting st'.
Proof. unfold queue_tracks_waiting. by intros -> ->. Qed.

Lemma tracks_started st st' t b :
  vision_key t = Some b -> b ∉ processingQueue st ->
  waiting st' = (waiting st ++ [t])%list ->
  processingQueue st' = {[b]} ∪ processingQueue st ->
  queue_tracks_waiting st -> queue_tracks_waiting st'.
Proof.
  unfold queue_tracks_waiting. intros Ht Hb -> -> [Hnd Hq].
  rewrite vision_keys_app. simpl. rewrite Ht. split.
  - apply NoDup_app. split; [done|]. split; [|apply NoDup_singleton].
    intros k Hk ->%list_elem_of_singleton. apply Hb. by apply Hq.
  - intros k. rewrite elem_of_union, elem_of_app, elem_of_singleton,
      list_elem_of_singleton, Hq. tauto.
Qed.

Lemma tracks_finished st st' t b :
  t ∈ waiting st -> vision_key t = Some b ->
  waiting st' = resume t (waiting st) ->
  processingQueue st' = processingQueue st ∖ {[b]} ->
  queue_tracks_waiting st -> queue_tracks_waiting st'.
Proof.
  unfold queue_tracks_waiting. intros Ht Hb -> -> [Hnd Hq].
  destruct (resume_vision t (waiting st) b Ht Hb Hnd) as [Hnd' Hk].
  split; [done|]. intros k.
  rewrite elem_of_difference, elem_of_singleton, Hk, Hq. done.
Qed.

Lemma tracks_continued st st' t t' b :
  t ∈ waiting st -> vision_key t = Some b -> vision_key t' = Some b ->
  waiting st' = (resume t (waiting st) ++ [t'])%list ->
  processingQueue st' = processingQueue st ->
  queue_tracks_waiting st -> queue_tracks_waiting st'.
Proof.
  unfold queue_tracks_waiting. intros Ht Hb Hb' -> -> [Hnd Hq].
  destruct (resume_vision t (waiting st) b Ht Hb Hnd) as [Hnd' Hk].
  rewrite vision_keys_app. simpl. rewrite Hb'. split.
  - apply NoDup_app. split; [done|]. split; [|apply NoDup_singleton].
    intros k [_ Hkb]%Hk ->%list_elem_of_singleton. done.
  - intros k. rewrite elem_of_app, list_elem_of_singleton, Hk, Hq.
    split.
    + intros Hin. destruct (decide (k = b)); [by right|by left].
    + intros [[Hin _] | ->]; [done|]. by eapply elem_of_vision_keys.
Qed.

Lemma tracks_other_started st st' t :
  vision_key t = None ->
  waiting st' = waiting st \/ waiting st' = (waiting st ++ [t])%list ->
  processingQueue st' = processingQueue st ->
  queue_tracks_waiting st -> queue_tracks_waiting st'.
Proof.
  unfold queue_tracks_waiting. intros Ht [Hw|Hw] Hq; rewrite Hw, Hq; [done|].
  rewrite vision_keys_app. simpl. rewrite Ht, app_nil_r. done.
Qed.

Lemma tracks_other_finished st st' t :
  vision_key t = None ->
  waiting st' = resume t (waiting st) ->
  processingQueue st' = processingQueue st ->
  queue_tracks_waiting st -> queue_tracks_waiting st'.
Proof.
  unfold queue_tracks_waiting. intros Ht -> ->. by rewrite resume_other.
Qed.

End ProcessingQueue.

Section Sessions.

Variable pages : list string.
Variable JSON_parse : string -> outcome value.

Lemma speakCurrentPage_scheduling speaking voices st :
  waiting (speakCurrentPage speaking voices st) = waiting st /\
  processingQueue (speakCurrentPage speaking voices st) = processingQueue st.
Proof.
  unfold speakCurrentPage, speakBubbles, start_page.
  repeat (case_match; simpl; try done).
Qed.

Lemma switch_effect_scheduling st :
  waiting (switch_effect st) = waiting st /\
  processingQueue (switch_effect st) = processingQueue st.
Proof. unfold switch_effect. repeat (case_match; simpl; try done). Qed.

Lemma unlock_effect_scheduling st :
  waiting (unlock_effect st) = waiting st /\
  processingQueue (unlock_effect st) = processingQueue st.
Proof. unfold unlock_effect. repeat (case_match; simpl; try done). Qed.

Lemma requestOCRForPage_scheduling index seen st :
  (waiting (requestOCRForPage pages index seen st) = waiting st \/
   waiting (requestOCRForPage pages index seen st)
   = (waiting st ++ [OcrWaiting index (slice3 pages index)])%list) /\
  processingQueue (requestOCRForPage pages index seen st) = processingQueue st.
Proof.
  unfold requestOCRForPage. repeat (case_match; simpl; try done); auto.
Qed.

Lemma is_waiting_elem_of t st : is_waiting t st = true -> t ∈ waiting st.
Proof. unfold is_waiting. apply bool_decide_eq_true_1. Qed.

(** Every transition keeps the in-flight set of the vision batches in
    step with the suspended calls. *)
Lemma step_tracks st ev st' :
  step pages JSON_parse st ev = Some st' ->
  queue_tracks_waiting st -> queue_tracks_waiting st'.
Proof.
  intros Hstep Hinv.
  destruct ev as [n| |b|speaking voices|b|n|b|b|b converted|b imgs response
                 |index seen|index urls merged response]; simpl in Hstep.
  - injection Hstep as <-. by eapply tracks_same.
  - destruct (isAnalysisEnabled st); injection Hstep as <-; [done|].
    destruct (switch_effect_scheduling (set_isAnalysisEnabled true st)) as [Hw Hq].
    by eapply tracks_same.
  - destruct (Bool.eqb b (ttsEnabled st)); injection Hstep as <-; [done|].
    destruct (switch_effect_scheduling (unlock_effect (set_ttsEnabled b st))) as [Hw Hq].
    destruct (unlock_effect_scheduling (set_ttsEnabled b st)) as [Hw' Hq'].
    eapply (tracks_same st); [by rewrite Hw, Hw'|by rewrite Hq, Hq'|done].
  - injection Hstep as <-.
    destruct (speakCurrentPage_scheduling speaking voices st) as [Hw Hq].
    by eapply tracks_same.
  - injection Hstep as <-. unfold preloadBatch.
    destruct (bool_decide (b ∈ processingQueue st)) eqn:Hb; [done|].
    apply bool_decide_eq_false_1 in Hb.
    destruct (forallb _ _); [done|].
    by eapply (tracks_started st _ (PreloadWaiting b) b).
  - unfold image_onload in Hstep. repeat case_match; try done.
    injection Hstep as <-. by eapply tracks_same.
  - destruct (is_waiting _ st) eqn:Hw; [|done]. apply is_waiting_elem_of in Hw.
    injection Hstep as <-.
    by eapply (tracks_finished st _ (PreloadWaiting b) b).
  - injection Hstep as <-. unfold analyzeBatch.
    destruct (bool_decide (b ∈ processingQueue st)) eqn:Hb; [done|].
    apply bool_decide_eq_false_1 in Hb.
    by eapply (tracks_started st _ (AnalyzeConverting b) b).
  - destruct (is_waiting _ st) eqn:Hw; [|done]. apply is_waiting_elem_of in Hw.
    destruct (one_per_page _ _ _); [|done].
    injection Hstep as <-. destruct converted as [imgs|msg].
    + by eapply (tracks_continued st _ (AnalyzeConverting b) (AnalyzeWaiting b imgs) b).
    + by eapply (tracks_finished st _ (AnalyzeConverting b) b).
  - destruct (is_waiting _ st) eqn:Hw; [|done]. apply is_waiting_elem_of in Hw.
    unfold analyzeBatch_returned in Hstep.
    destruct (as_results _) as [batchResults|]; [|done]. simpl in Hstep.
    injection Hstep as <-.
    by eapply (tracks_finished st _ (AnalyzeWaiting b imgs) b).
  - injection Hstep as <-.
    destruct (requestOCRForPage_scheduling index seen st) as [Hw Hq].
    by eapply (tracks_other_started st _ (OcrWaiting index (slice3 pages index))).
  - destruct (is_waiting _ st) eqn:Hw; [|done].
    injection Hstep as <-.
    eapply (tracks_other_finished st _ (OcrWaiting index urls)); [done| | |done].
    + unfold requestOCRForPage_settled. by case_match.
    + unfold requestOCRForPage_settled. by case_match.
Qed.

Lemma run_tracks evs st st' :
  run pages JSON_parse st evs = Some st' ->
  queue_tracks_waiting st -> queue_tracks_waiting st'.
Proof.
  revert st. induction evs as [|ev evs IH]; intros st; simpl.
  - by intros [= <-].
  - destruct (step pages JSON_parse st ev) as [st1|] eqn:Hstep; [|done].
    intros Hrun Hinv. eapply IH; [done|]. by eapply step_tracks.
Qed.

Lemma reachable_tracks st :
  reachable pages JSON_parse st -> queue_tracks_waiting st.
Proof.
  intros [evs Hrun]. eapply run_tracks; [done|].
  split; [apply NoDup_nil_2|]. intros b. simpl. set_solver.
Qed.

(** C10: [preloadBatch] and [analyzeBatch] test and fill the same set,
    [processingQueue], under the same batch index.  In every state of a
    session, while a call of [preloadBatch] for batch [k] is waiting,
    [analyzeBatch] on [k] leaves the state as it is (no remote call, no
    change of the cache), and while a call of [analyzeBatch] for [k] is
    waiting, before or after its remote call, so does [preloadBatch]. *)
Theorem preload_and_analysis_share_the_queue (st : State) (k : nat) :
  reachable pages JSON_parse st ->
  (PreloadWaiting k ∈ waiting st -> analyzeBatch pages k st = st) /\
  (AnalyzeConverting k ∈ waiting st \/ (exists imgs, AnalyzeWaiting k imgs ∈ waiting st) ->
   preloadBatch pages k st = st).
Proof.
  intros [_ Hq]%reachable_tracks. split.
  - intros Hw. unfold analyzeBatch.
    rewrite bool_decide_eq_true_2; [done|].
    apply Hq. by eapply elem_of_vision_keys.
  - intros Hw. unfold preloadBatch.
    rewrite bool_decide_eq_true_2; [done|].
    apply Hq. destruct Hw as [Hw|[imgs Hw]]; by eapply elem_of_vision_keys.
Qed.

End Sessions.

Lemma preload_and_analysis_share_the_queue_witness :
  analyzeBatch three_pages 0 (preloadBatch three_pages 0 initial)
  = preloadBatch three_pages 0 initial.
Proof.
  refine (proj1 (preload_and_analysis_share_the_queue three_pages MiniJSON.parse
                   (preloadBatch three_pages 0 initial) 0 _) _).
  - exists [CallPreloadBatch 0]. reflexivity.
  - vm_compute. apply list_elem_of_here.
Defined.

(** ** [Reader.tsx]: the in-flight sets and the remote calls *)

Section InFlight.

Variable pages : list string.
Variable JSON_parse : string -> outcome value.

(** While a call of [analyzeBatch] for batch [k] is waiting, calling it
    again changes nothing: the batch gets one remote call. *)
Lemma analyzeBatch_once st k :
  reachable pages JSON_parse st ->
  AnalyzeConverting k ∈ waiting st \/ (exists imgs, AnalyzeWaiting k imgs ∈ waiting st) ->
  analyzeBatch pages k st = st.
Proof.
  intros [_ Hq]%reachable_tracks Hw. unfold analyzeBatch.
  rewrite bool_decide_eq_true_2; [done|].
  apply Hq. destruct Hw as [Hw|[imgs Hw]]; by eapply elem_of_vision_keys.
Qed.

(** The key of a batch leaves its in-flight set when the batch ends, by a
    failure as by a success. *)
Lemma key_released_on_completion st k :
  (forall msg, k ∉ processingQueue (analyzeBatch_converted pages k (Throws msg) st)) /\
  (forall imgs response st',
      analyzeBatch_returned JSON_parse k imgs response st = Some st' ->
      k ∉ processingQueue st') /\
  (forall b, k ∉ processingQueue (preloadBatch_settled b st) \/ b <> k) /\
  (forall urls merged response,
      k ∉ pendingOCRBatches (requestOCRForPage_settled JSON_parse k urls merged response st)).
Proof.
  repeat split.
  - intros msg. simpl. set_solver.
  - intros imgs response st'. unfold analyzeBatch_returned.
    destruct (as_results _); [|done]. simpl. intros [= <-]. simpl. set_solver.
  - intros b. destruct (decide (b = k)) as [->|]; [left|by right]. simpl. set_solver.
  - intros urls merged response. unfold requestOCRForPage_settled.
    case_match; simpl; set_solver.
Qed.

(** A call of [requestOCRForPage] for a batch that is pending makes no
    remote call, and its [finally] block takes the key out of
    [pendingOCRBatches] although the first request has not settled. *)
Lemma requestOCRForPage_while_pending st index seen :
  index ∈ pendingOCRBatches st ->
  remoteCalls (requestOCRForPage pages index seen st) = remoteCalls st /\
  waiting (requestOCRForPage pages index seen st) = waiting st /\
  index ∉ pendingOCRBatches (requestOCRForPage pages index seen st).
Proof.
  intros Hin. unfold requestOCRForPage.
  destruct (forallb _ _); [simpl; set_solver|].
  cbn [pendingOCRBatches set_speech set_debugError].
  rewrite bool_decide_eq_true_2 by done. simpl. set_solver.
Qed.

End InFlight.

(** C6: on three pages, the first call of [requestOCRForPage(0)] makes the
    remote call and holds the key 0; a second call while it waits makes no
    call but releases the key; a third call, the first request still
    waiting, then makes a second remote call for the same key. *)
Theorem ocr_batch_requested_twice_in_flight :
  (fun st => (bool_decide (0 ∈ pendingOCRBatches st), ocr_waiting 0 st, ocr_calls 0 st))
    <$> run three_pages MiniJSON.parse initial [CallRequestOCR 0 ∅]
  = Some (true, 1, 1) /\
  (fun st => (bool_decide (0 ∈ pendingOCRBatches st), ocr_waiting 0 st, ocr_calls 0 st))
    <$> run three_pages MiniJSON.parse initial [CallRequestOCR 0 ∅; CallRequestOCR 0 ∅]
  = Some (false, 1, 1) /\
  (fun st => (bool_decide (0 ∈ pendingOCRBatches st), ocr_waiting 0 st, ocr_calls 0 st))
    <$> run three_pages MiniJSON.parse initial
          [CallRequestOCR 0 ∅; CallRequestOCR 0 ∅; CallRequestOCR 0 ∅]
  = Some (true, 2, 2).
Proof. repeat split; vm_compute; reflexivity. Qed.

(** ** [Reader.tsx]: the pages a batch touches *)

Section Clipping.

Variable pages : list string.
Variable JSON_parse : string -> outcome value.

(** The pages of a vision batch and of an OCR batch are pages of the
    manga. *)
Lemma batch_ranges_clipped i :
  (forall batchIndex,
      i ∈ page_range (batchIndex * BATCH_SIZE)
            (Nat.min (batchIndex * BATCH_SIZE + BATCH_SIZE) (length pages)) ->
      i < length pages) /\
  (forall batchStart,
      i ∈ page_range batchStart (Nat.min (batchStart + 3) (length pages)) ->
      i < length pages).
Proof. split; intros b; rewrite elem_of_page_range; lia. Qed.

(** The marking passes and the failure updater of a vision batch write no
    entry past the last page. *)
Lemma vision_marks_clipped batchIndex s cache j :
  length pages <= j ->
  mark_range s (batchIndex * BATCH_SIZE)
    (Nat.min (batchIndex * BATCH_SIZE + BATCH_SIZE) (length pages)) cache !! j
  = cache !! j /\
  mark_failed (batchIndex * BATCH_SIZE)
    (Nat.min (batchIndex * BATCH_SIZE + BATCH_SIZE) (length pages)) cache !! j
  = cache !! j.
Proof.
  intros Hj. split; [apply mark_range_outside|apply mark_failed_outside]; lia.
Qed.

Lemma store_texts_outside absoluteIndex texts (next : gmap nat value) j :
  j < absoluteIndex \/ absoluteIndex + length texts <= j ->
  store_texts absoluteIndex texts next !! j = next !! j.
Proof.
  revert absoluteIndex next.
  induction texts as [|t rest IH]; intros a next Hj; simpl in *; [done|].
  rewrite IH by lia. rewrite lookup_insert_ne by lia. done.
Qed.

Lemma store_texts_at absoluteIndex texts (next : gmap nat value) r t :
  texts !! r = Some t ->
  store_texts absoluteIndex texts next !! (absoluteIndex + r)
  = Some (or_else t (VStr "")).
Proof.
  revert absoluteIndex next r.
  induction texts as [|t' rest IH]; intros a next r Hr; [done|].
  destruct r as [|r]; simpl in *.
  - injection Hr as ->. rewrite store_texts_outside by lia.
    replace (a + 0) with a by lia. by rewrite lookup_insert_eq.
  - replace (a + S r) with (S a + r) by lia. by apply IH.
Qed.

Lemma length_slice3 batchStart :
  length (slice3 pages batchStart) = Nat.min 3 (length pages - batchStart).
Proof. unfold slice3. by rewrite length_take, length_drop. Qed.

(** An OCR batch writes no text past the last page. *)
Lemma ocr_texts_clipped index merged response st j :
  length pages <= j ->
  ocrTextCache (requestOCRForPage_settled JSON_parse index (slice3 pages index)
                  merged response st) !! j
  = ocrTextCache st !! j.
Proof.
  intros Hj. unfold requestOCRForPage_settled.
  destruct (performBatchedOCR _ _ _ _) as [texts|msg] eqn:Hocr; simpl; [|done].
  apply performBatchedOCR_length in Hocr. rewrite length_slice3 in Hocr.
  apply store_texts_outside. lia.
Qed.

End Clipping.

(** C7: on two pages, a vision batch whose response has three page
    results writes a complete entry for page 2, which the manga does not
    have: the results are stored one per element of the response, not one
    per page of the range. *)
Theorem vision_results_written_past_the_last_page :
  length two_pages = 2 /\
  (fun st => analysisCache st !! 2)
    <$> run two_pages MiniJSON.parse initial
          [CallAnalyzeBatch 0;
           ImagesConverted 0 (Returns ["img0"; "img1"]);
           AnalysisReturned 0 ["img0"; "img1"] (Returns (Some "[{},{},{}]"))]
  = Some (Some (mkEntry [] complete)).
Proof. split; vm_compute; reflexivity. Qed.

(** ** [Reader.tsx]: the text cache and the narration *)

Section TextCache.

Variable pages : list string.
Variable JSON_parse : string -> outcome value.




End TextCache.


Section Narration.

Lemma utterances_app (st : State) (actions : list SpeechAction) :
  utterances (set_speech (speech st ++ actions) st)
  = (utterances st ++ omap (fun a => match a with Speak u => Some u | Cancel => None end)
                        actions)%list.
Proof. unfold utterances. simpl. apply omap_app. Qed.

Lemma start_page_utterances pageIndex st :
  utterances (start_page pageIndex st) = utterances st.
Proof.
  unfold start_page, utterances. case_match; simpl; rewrite !omap_app; simpl;
    by rewrite !app_nil_r.
Qed.

Lemma omap_speak {A : Type} (f : A -> Utterance) (l : list A) :
  omap (fun a => match a with Speak u => Some u | Cancel => None end)
       (map (fun x => Speak (f x)) l)
  = map f l.
Proof. induction l as [|x l IH]; simpl; [done|]. by rewrite <- IH. Qed.

(** The utterances of the bubble-based narration. *)
Lemma speakBubbles_utterances speaking voices st :
  utterances (speakBubbles speaking voices st)
  = (utterances st ++
     match analysisCache st !! currentIndex st with
     | Some entry =>
         if is_complete (status entry)
            && negb (bool_decide (lastSpokenPageIndex st = Some (currentIndex st))
                     && speaking)
         then map (fun bubble => utterance_for voices (text bubble)) (bubbles entry)
         else []
     | None => []
     end)%list.
Proof.
  unfold speakBubbles.
  destruct (analysisCache st !! currentIndex st) as [entry|]; [|by rewrite app_nil_r].
  destruct (is_complete (status entry)); cbn [negb andb]; [|by rewrite app_nil_r].
  destruct (bubbles entry) as [|b bs] eqn:Hb; cbn [length Nat.eqb].
  { destruct (negb _); simpl; by rewrite app_nil_r. }
  destruct (bool_decide _ && speaking); cbn [negb]; [by rewrite app_nil_r|].
  cbv zeta. rewrite utterances_app, start_page_utterances. f_equal.
  apply omap_speak.
Qed.

(** C2 as stated fails: in the session [narrating] the text of page 0 is
    cached as the empty string and its analysis is complete with one
    bubble; [speakCurrentPage] then speaks the bubble. *)
Lemma empty_text_speaks_the_bubbles :
  reachable three_pages MiniJSON.parse narrating /\
  ocrTextCache narrating !! currentIndex narrating = Some (VStr "") /\
  analysisCache narrating !! currentIndex narrating
  = Some (mkEntry [mkBubble "Hi" (mkBox 10 300 60 400)] complete) /\
  utterances (speakCurrentPage false [] narrating)
  = (utterances narrating ++ [mkUtterance "Hi" 1 None])%list /\
  ~ silent_on_empty_text.
Proof.
  split.
  { exists (analyse_first_batch one_bubble_response
            ++ [CallRequestOCR 0 ∅;
                OcrSettled 0 three_pages (Returns "merged") (Returns (Some "[]"));
                SetIsAnalysisEnabled;
                SetTtsEnabled true])%list.
    vm_compute. reflexivity. }
  split; [vm_compute; reflexivity|].
  split; [vm_compute; reflexivity|].
  split; [vm_compute; reflexivity|].
  intros H. specialize (H narrating false []).
  assert (Hsame : utterances (speakCurrentPage false [] narrating) = utterances narrating).
  { apply H. vm_compute. reflexivity. }
  vm_compute in Hsame. discriminate.
Qed.

(** C2, amended: on a page whose cached text is present and empty,
    [speakCurrentPage] speaks no text utterance and goes on to the
    bubble-based narration: with narration and analysis on, when the
    analysis of the page is complete and the page is not already being
    spoken, it speaks one utterance per bubble, in the stored order (none
    for an empty bubble list); in every other case it speaks nothing. *)
Theorem empty_text_falls_back_to_bubbles (st : State) (speaking : bool)
    (voices : list Voice) :
  ocrTextCache st !! currentIndex st = Some (VStr "") ->
  utterances (speakCurrentPage speaking voices st)
  = (utterances st ++
     if ttsEnabled st && isAnalysisEnabled st then
       match analysisCache st !! currentIndex st with
       | Some entry =>
           if is_complete (status entry)
              && negb (bool_decide (lastSpokenPageIndex st = Some (currentIndex st))
                       && speaking)
           then map (fun bubble => utterance_for voices (text bubble)) (bubbles entry)
           else []
       | None => []
       end
     else [])%list.
Proof.
  intros Hempty. unfold speakCurrentPage, cached. rewrite Hempty. simpl.
  destruct (ttsEnabled st), (isAnalysisEnabled st); simpl;
    try (by rewrite app_nil_r).
  apply speakBubbles_utterances.
Qed.

Lemma empty_text_falls_back_to_bubbles_witness :
  utterances (speakCurrentPage false [] narrating)
  = (utterances narrating ++ [mkUtterance "Hi" 1 None])%list.
Proof.
  rewrite (empty_text_falls_back_to_bubbles narrating false []).
  - vm_compute. reflexivity.
  - vm_compute. reflexivity.
Defined.

End Narration.

(** * Further properties of the code *)

(** ** [ocr.ts]: what is left of the fences *)

Section Fences.

Lemma matches_backticks s :
  matches_at false "```" s = true <-> 3 <= leading_backticks s.
Proof.
  destruct s as [|a [|b [|c s]]]; cbn [matches_at char_eq leading_backticks];
    repeat match goal with
           | |- context [Ascii.eqb "`" ?x] => destruct (Ascii.eqb "`" x)
           end; cbn [andb]; split; try discriminate; try lia; done.
Qed.

(** After the second replacement fewer than three backticks start the
    text, and a text that started with fewer than three keeps them. *)
Lemma remove_backticks_leading s k :
  leading_backticks (remove_all_from false "```" k s) < 3 /\
  (k = 0 -> leading_backticks s < 3 ->
   leading_backticks (remove_all_from false "```" 0 s) = leading_backticks s).
Proof.
  revert k. induction s as [|c s IH]; intros k; [destruct k; simpl; split; lia || done|].
  destruct k as [|k].
  - cbn [remove_all_from].
    destruct (matches_at false "```" (String c s)) eqn:Hm.
    + split; [apply IH|]. apply matches_backticks in Hm. lia.
    + assert (Hlt : leading_backticks (String c s) < 3).
      { destruct (decide (3 <= leading_backticks (String c s))) as [Hge|]; [|lia].
        apply matches_backticks in Hge. congruence. }
      assert (Heq : leading_backticks (String c (remove_all_from false "```" 0 s))
                    = leading_backticks (String c s)).
      { cbn [leading_backticks] in *. destruct (Ascii.eqb "`" c); [|done].
        f_equal. apply (IH 0); [done|lia]. }
      split; [by rewrite Heq|done].
  - cbn [remove_all_from]. split; [apply IH|done].
Qed.

Lemma remove_backticks_none s k :
  includes "```" (remove_all_from false "```" k s) = false.
Proof.
  revert k. induction s as [|c s IH]; intros k; [by destruct k|].
  destruct k as [|k]; [|apply IH].
  pose proof (remove_backticks_leading (String c s) 0) as [Hlt _].
  cbn [remove_all_from] in *.
  destruct (matches_at false "```" (String c s)); [apply IH|].
  cbn [includes]. rewrite IH, orb_false_r.
  apply not_true_is_false. intros Hm%matches_backticks. lia.
Qed.

Lemma matches_trim_end ci p s :
  matches_at ci p (trim_end s) = true -> matches_at ci p s = true.
Proof.
  revert p. induction s as [|c s IH]; intros p; [done|].
  cbn [trim_end]. destruct (is_whitespace c && string_empty (trim_end s)).
  - by destruct p.
  - destruct p as [|a p]; [done|]. cbn [matches_at].
    intros [Hc Hm]%andb_prop. rewrite Hc. by apply IH.
Qed.

Lemma includes_trim_end p s :
  includes p s = false -> includes p (trim_end s) = false.
Proof.
  induction s as [|c s IH]; [done|].
  cbn [includes]. intros [Hm Hs]%orb_false_elim.
  destruct (includes p (trim_end (String c s))) eqn:Hin; [|done].
  revert Hin. cbn [trim_end].
  destruct (is_whitespace c && string_empty (trim_end s)) eqn:Hws.
  - cbn [includes]. rewrite orb_false_r. destruct p; [|done]. done.
  - cbn [includes]. rewrite (IH Hs), orb_false_r. intros Hin.
    assert (matches_at false p (trim_end (String c s)) = true) as Ht.
    { cbn [trim_end]. by rewrite Hws. }
    apply matches_trim_end in Ht. congruence.
Qed.

Lemma includes_trim_start p s :
  includes p s = false -> includes p (trim_start s) = false.
Proof.
  induction s as [|c s IH]; [done|].
  intros Hs. cbn [trim_start]. destruct (is_whitespace c); [|done].
  apply IH. cbn [includes] in Hs. by apply orb_false_elim in Hs as [_ Hs].
Qed.

Lemma char_eq_backtick a : char_eq true "`" a = Ascii.eqb "`" a.
Proof. destruct a as [[] [] [] [] [] [] [] []]; reflexivity. Qed.

(** A match of either fence pattern starts with three backticks. *)
Lemma fence_patterns_start_with_backticks ci p x :
  (ci = true /\ p = "```json") \/ (ci = false /\ p = "```") ->
  matches_at ci p x = true -> matches_at false "```" x = true.
Proof.
  intros [[-> ->]|[-> ->]]; [|done].
  destruct x as [|a [|b [|c x]]]; cbn [matches_at]; try (by rewrite ?andb_false_r).
  rewrite !char_eq_backtick. cbn [char_eq].
  intros [-> Hm]%andb_prop. apply andb_prop in Hm as [-> Hm].
  apply andb_prop in Hm as [-> _]. done.
Qed.

End Fences.

(** X1: whatever the response, the text handed to [JSON.parse] by
    [performBatchedOCR] holds no run of three backticks: no fence
    survives the cleaning, wherever it stood in the response. *)
Theorem cleanedResponse_has_no_fence (text : string) :
  includes "```" (cleanedResponse text) = false.
Proof.
  unfold cleanedResponse, trim.
  apply includes_trim_end, includes_trim_start, remove_backticks_none.
Qed.

Section Idempotence.

Lemma remove_all_without_fence ci p s :
  (ci = true /\ p = "```json") \/ (ci = false /\ p = "```") ->
  includes "```" s = false -> remove_all ci p s = s.
Proof.
  intros Hp. unfold remove_all. induction s as [|c s IH]; [done|].
  cbn [includes]. intros [Hm Hs]%orb_false_elim.
  cbn [remove_all_from].
  destruct (matches_at ci p (String c s)) eqn:Hmp.
  - apply (fence_patterns_start_with_backticks ci p _ Hp) in Hmp. congruence.
  - by rewrite IH.
Qed.

Lemma trim_end_idempotent s : trim_end (trim_end s) = trim_end s.
Proof.
  induction s as [|c s IH]; [done|].
  cbn [trim_end].
  destruct (is_whitespace c && string_empty (trim_end s)) eqn:Hws; [done|].
  cbn [trim_end]. by rewrite IH, Hws.
Qed.

Lemma trim_start_head s :
  trim_start s = EmptyString \/
  exists c r, trim_start s = String c r /\ is_whitespace c = false.
Proof.
  induction s as [|c s IH]; [by left|].
  cbn [trim_start]. destruct (is_whitespace c) eqn:Hc; [done|].
  right. by exists c, s.
Qed.

Lemma trim_idempotent s : trim (trim s) = trim s.
Proof.
  unfold trim. destruct (trim_start_head s) as [->|(c & r & -> & Hc)]; [done|].
  cbn [trim_end]. rewrite Hc. cbn [andb trim_start]. rewrite Hc.
  cbn [trim_end]. by rewrite Hc, trim_end_idempotent.
Qed.

End Idempotence.

(** X2: cleaning a response that is already clean changes nothing. *)
Theorem cleanedResponse_idempotent (text : string) :
  cleanedResponse (cleanedResponse text) = cleanedResponse text.
Proof.
  assert (Hfree : includes "```" (cleanedResponse text) = false).
  { unfold cleanedResponse, trim.
    apply includes_trim_end, includes_trim_start, remove_backticks_none. }
  unfold cleanedResponse at 1.
  rewrite (remove_all_without_fence true "```json"); [|by left|done].
  rewrite (remove_all_without_fence false "```"); [|by right|done].
  unfold cleanedResponse. apply trim_idempotent.
Qed.

(** X3: a fence whose tag is written in capitals and a fence without a
    tag are removed like the lower-case one: both responses are cleaned to
    the same text as the bare response. *)
Theorem other_fences_cleaned_alike (t : string) :
  cleanedResponse (fenced_capitals t) = cleanedResponse t /\
  cleanedResponse (fenced_plain t) = cleanedResponse t.
Proof.
  unfold cleanedResponse, fenced_capitals, fenced_plain. split.
  - assert (H1 : remove_all true "```json" ("```JSON" +:+ String LF (t +:+ String LF "```"))
                 = String LF (remove_all true "```json" t +:+ String LF "```")).
    { unfold remove_all. cbn -[String.append remove_all_from].
      change (String LF (remove_all_from true "```json" 0 (t +:+ String LF "```"))
              = String LF (remove_all_from true "```json" 0 t +:+ String LF "```")).
      f_equal. by rewrite remove_all_from_before; [|done|done|lia]. }
    rewrite H1. set (u := remove_all true "```json" t).
    assert (H2 : remove_all false "```" (String LF (u +:+ String LF "```"))
                 = String LF (remove_all false "```" u +:+ String LF EmptyString)).
    { unfold remove_all at 1. cbn [remove_all_from matches_at char_eq].
      f_equal. fold (remove_all false "```" (u +:+ String LF "```")).
      by rewrite remove_all_before. }
    rewrite H2, trim_whitespace_start by done. by apply trim_whitespace_end.
  - assert (H1 : remove_all true "```json" ("```" +:+ String LF (t +:+ String LF "```"))
                 = "```" +:+ String LF (remove_all true "```json" t +:+ String LF "```")).
    { unfold remove_all. cbn -[String.append remove_all_from].
      change ("```" +:+ String LF (remove_all_from true "```json" 0 (t +:+ String LF "```"))
              = "```" +:+ String LF (remove_all_from true "```json" 0 t +:+ String LF "```")).
      do 4 f_equal. by rewrite remove_all_from_before; [|done|done|lia]. }
    rewrite H1. set (u := remove_all true "```json" t).
    assert (H2 : remove_all false "```" ("```" +:+ String LF (u +:+ String LF "```"))
                 = String LF (remove_all false "```" u +:+ String LF EmptyString)).
    { unfold remove_all at 1. cbn -[String.append remove_all_from].
      change (String LF (remove_all_from false "```" 0 (u +:+ String LF "```"))
              = String LF (remove_all false "```" u +:+ String LF EmptyString)).
      f_equal. fold (remove_all false "```" (u +:+ String LF "```")).
      by rewrite remove_all_before. }
    rewrite H2, trim_whitespace_start by done. by apply trim_whitespace_end.
Qed.

(** ** [ocr.ts]: the entries of the results *)

(** X4: every entry that [performBatchedOCR] returns is the empty string
    or a truthy value: a [null], [0] or [false] of the response never
    reaches the caller. *)
Theorem performBatchedOCR_entries (JSON_parse : string -> outcome value)
    (urls : list string) (merged : outcome string) (response : reply)
    (texts : list value) :
  performBatchedOCR JSON_parse urls merged response = Returns texts ->
  Forall (fun t => t = VStr "" \/ truthy t = true) texts.
Proof.
  unfold performBatchedOCR.
  destruct merged as [image|msg]; [|done].
  destruct response as [text|msg]; [|done]. cbn [mbind outcome_bind].
  assert (Hempty : Forall (fun t => t = VStr "" \/ truthy t = true) (empty_texts urls)).
  { unfold empty_texts. apply Forall_forall. intros t Hin.
    apply list_elem_of_In, in_map_iff in Hin as (u & <- & _). by left. }
  destruct (no_text text); [by intros [= <-]|].
  destruct (parsedResponse JSON_parse (text_of text)) as [parsed|message]; [|done].
  destruct parsed; intros [= <-]; try done.
  apply Forall_lookup. intros i t. rewrite list_lookup_imap.
  destruct (urls !! i); [|done]. intros [= <-]. unfold or_else.
  destruct (truthy (index items i)) eqn:Ht; [by right|by left].
Qed.

Lemma performBatchedOCR_entries_witness :
  Forall (fun t => t = VStr "" \/ truthy t = true)
         [VStr "Hello"; VStr ""; VStr "World"].
Proof.
  apply (performBatchedOCR_entries MiniJSON.parse three_pages (Returns "merged")
           (Returns (Some hello_world))).
  vm_compute. reflexivity.
Defined.

Section NullPage.

Variable JSON_parse : string -> outcome value.

Lemma mapM_page_bubbles_nullish items :
  existsb nullish items = true ->
  exists msg, mapM page_bubbles items = Throws msg.
Proof.
  induction items as [|item items IH]; [done|].
  cbn [existsb]. intros Hex.
  change (mapM page_bubbles (item :: items))
    with (page_bubbles item ≫= fun b =>
          mapM page_bubbles items ≫= fun bs => mret (b :: bs)).
  destruct (nullish item) eqn:Hitem.
  - destruct item; try done; by eexists.
  - cbn [orb] in Hex. destruct (IH Hex) as [msg Hmsg]. rewrite Hmsg.
    destruct (page_bubbles item) as [b|msg']; by eexists.
Qed.

End NullPage.

(** X5: when one page result of the response is [null], reading its
    bubbles throws inside [analyzeMangaPages], which then gives up the
    whole batch: every image gets the empty bubble list, the bubbles of
    the other pages of the response are lost. *)
Theorem null_page_discards_the_batch (JSON_parse : string -> outcome value)
    (imgs : list string) (text : string) (items : list value) :
  text <> EmptyString ->
  JSON_parse text = Returns (VArr items) ->
  existsb nullish items = true ->
  analyzeMangaPages JSON_parse imgs (Returns (Some text)) = empty_results imgs.
Proof.
  intros Htext Hparse Hnull. unfold analyzeMangaPages.
  replace (no_text (Some text)) with false by (by destruct text).
  cbn [text_of]. rewrite Hparse.
  by destruct (mapM_page_bubbles_nullish items Hnull) as [msg ->].
Qed.

Lemma null_page_discards_the_batch_witness :
  analyzeMangaPages MiniJSON.parse three_images
    (Returns (Some ("[{" +:+ quoted "bubbles" +:+ ":[{" +:+ quoted "text" +:+ ":"
                    +:+ quoted "Hi" +:+ "," +:+ quoted "box_2d"
                    +:+ ":[10,300,60,400]}]},null,{}]")))
  = [VArr []; VArr []; VArr []].
Proof.
  apply (null_page_discards_the_batch MiniJSON.parse three_images _
           [VObj [("bubbles",
                   VArr [VObj [("box_2d", VArr [VNum 10; VNum 300; VNum 60; VNum 400]);
                               ("text", VStr "Hi")]])];
            VNull; VObj []]).
  - discriminate.
  - vm_compute. reflexivity.
  - reflexivity.
Defined.

(** ** [ocr.ts]: data URLs and the stacked image *)

Section DataUrl.

Lemma until_comma_all payload :
  no_comma payload = true -> until_comma payload = payload.
Proof.
  induction payload as [|c payload IH]; [done|].
  cbn [no_comma]. intros [Hc Hp]%andb_prop. apply negb_true_iff in Hc.
  cbn [until_comma]. rewrite Hc. by rewrite IH.
Qed.

Lemma split_comma_1_header header rest :
  no_comma header = true ->
  split_comma_1 (header +:+ String ","%char rest) = VStr (until_comma rest).
Proof.
  induction header as [|c header IH]; [done|].
  cbn [no_comma]. intros [Hc Hp]%andb_prop. apply negb_true_iff in Hc.
  change (String c header +:+ String ","%char rest)
    with (String c (header +:+ String ","%char rest)).
  cbn [split_comma_1]. rewrite Hc. by apply IH.
Qed.

Lemma split_comma_1_none s :
  no_comma s = true -> split_comma_1 s = VUndefined.
Proof.
  induction s as [|c s IH]; [done|].
  cbn [no_comma]. intros [Hc Hp]%andb_prop. apply negb_true_iff in Hc.
  cbn [split_comma_1]. rewrite Hc. by apply IH.
Qed.

End DataUrl.

(** X6: from a data URL, a header without comma, a comma and a payload
    without comma, [blobUrlToBase64] resolves to the payload.  From a
    non-empty result without any comma it does not reject: it resolves to
    [undefined]. *)
Theorem blobUrlToBase64_data_part (header payload : string) :
  no_comma header = true ->
  no_comma payload = true ->
  blobUrlToBase64_onloadend (Some (header +:+ String ","%char payload))
  = Returns (VStr payload) /\
  (header <> EmptyString ->
   blobUrlToBase64_onloadend (Some header) = Returns VUndefined).
Proof.
  intros Hh Hp. unfold blobUrlToBase64_onloadend. split.
  - replace (string_empty (header +:+ String ","%char payload)) with false
      by (by destruct header).
    rewrite split_comma_1_header by done. by rewrite until_comma_all.
  - intros Hne. destruct header as [|c header]; [done|].
    cbn [string_empty]. by rewrite split_comma_1_none.
Qed.

Lemma blobUrlToBase64_data_part_witness :
  blobUrlToBase64_onloadend (Some "data:image/png;base64,iVBORw0KGgo=")
  = Returns (VStr "iVBORw0KGgo=").
Proof.
  apply (blobUrlToBase64_data_part "data:image/png;base64" "iVBORw0KGgo="); reflexivity.
Defined.

Section StackedImage.

Local Open Scope Z_scope.

Lemma fold_left_add_from (l : list Z) (a : Z) :
  fold_left Z.add l a = a + totalHeight l.
Proof.
  unfold totalHeight. revert a.
  induction l as [|h l IH]; intros a; cbn [fold_left]; [lia|].
  rewrite (IH (a + h)), (IH (0 + h)). lia.
Qed.

Lemma totalHeight_cons h l : totalHeight (h :: l) = h + totalHeight l.
Proof. unfold totalHeight at 1. simpl. apply fold_left_add_from. Qed.

Lemma totalHeight_nonneg l :
  Forall (fun h => 0 <= h) l -> 0 <= totalHeight l.
Proof.
  induction 1 as [|h l Hh _ IH]; [done|]. rewrite totalHeight_cons. lia.
Qed.

Lemma length_draw_offsets y0 l : length (draw_offsets y0 l) = length l.
Proof. revert y0. induction l as [|h l IH]; intros y0; simpl; [done|]. by rewrite IH. Qed.

Lemma draw_offsets_lookup y0 l i y :
  draw_offsets y0 l !! i = Some y -> y = y0 + totalHeight (take i l).
Proof.
  revert y0 i. induction l as [|h l IH]; intros y0 i; [done|].
  destruct i as [|i]; simpl.
  - intros [= <-]. unfold totalHeight. simpl. lia.
  - intros Hy%IH. rewrite totalHeight_cons. lia.
Qed.

Lemma totalHeight_take_le l i h :
  Forall (fun h => 0 <= h) l -> l !! i = Some h ->
  totalHeight (take i l) + h <= totalHeight l.
Proof.
  intros Hl. revert i. induction Hl as [|h' l Hh Hl IH]; intros i; [done|].
  destruct i as [|i]; simpl.
  - intros [= ->]. rewrite totalHeight_cons. unfold totalHeight at 1. simpl.
    pose proof (totalHeight_nonneg l Hl). lia.
  - intros Hi%IH. rewrite !totalHeight_cons. lia.
Qed.

End StackedImage.

(** X7: in the stacked image each page is drawn at the sum of the scaled
    heights of the pages before it, the next page right where it ends,
    and, the heights being non-negative, inside the canvas of height
    [totalHeight]: the pages neither overlap nor leave a gap, and they keep
    their order. *)
Theorem stacked_pages_tile_the_canvas (scaledHeights : list Z) (i : nat) (y scaledH : Z) :
  draw_offsets 0 scaledHeights !! i = Some y ->
  scaledHeights !! i = Some scaledH ->
  y = totalHeight (take i scaledHeights) /\
  (forall y', draw_offsets 0 scaledHeights !! S i = Some y' -> y' = (y + scaledH)%Z) /\
  (Forall (fun h => (0 <= h)%Z) scaledHeights ->
   (0 <= y)%Z /\ (y + scaledH <= totalHeight scaledHeights)%Z).
Proof.
  intros Hy Hh. apply draw_offsets_lookup in Hy as Hsum.
  assert (Hy0 : y = totalHeight (take i scaledHeights)) by lia.
  split; [done|]. split.
  - intros y' Hy'%draw_offsets_lookup. rewrite Hy', Hy0.
    rewrite (take_S_r _ _ _ Hh). unfold totalHeight.
    rewrite fold_left_app. simpl. lia.
  - intros Hnonneg. rewrite Hy0. split.
    + apply totalHeight_nonneg. by apply Forall_take.
    + by apply totalHeight_take_le.
Qed.

Lemma stacked_pages_tile_the_canvas_witness :
  (1200 = totalHeight (take 1 [1200; 1180; 1210]))%Z /\
  (forall y', draw_offsets 0 [1200; 1180; 1210]%Z !! 2 = Some y' ->
              y' = (1200 + 1180)%Z) /\
  (Forall (fun h => (0 <= h)%Z) [1200; 1180; 1210]%Z ->
   (0 <= 1200)%Z /\ (1200 + 1180 <= totalHeight [1200; 1180; 1210])%Z).
Proof.
  apply (stacked_pages_tile_the_canvas [1200; 1180; 1210]%Z 1 1200 1180); reflexivity.
Defined.

(** ** [Reader.tsx]: what a transition changes *)

Section Frames.

Variable pages : list string.
Variable JSON_parse : string -> outcome value.

(** An invariant of the transitions holds in every state of a session. *)
Lemma reachable_invariant (P : State -> Prop) :
  P initial ->
  (forall st ev st', P st -> step pages JSON_parse st ev = Some st' -> P st') ->
  forall st, reachable pages JSON_parse st -> P st.
Proof.
  intros Hinit Hstep st [evs Hrun].
  revert Hrun. generalize initial, Hinit. clear Hinit.
  induction evs as [|ev evs IH]; intros st0 H0; simpl.
  - by intros [= <-].
  - destruct (step pages JSON_parse st0 ev) as [st1|] eqn:Hst; [|done].
    apply IH. by eapply Hstep.
Qed.

Lemma elem_of_resume (t t0 : Task) ts : t ∈ resume t0 ts -> t ∈ ts.
Proof.
  induction ts as [|t' ts IH]; [done|]. simpl.
  destruct (decide (t0 = t')) as [->|Hne].
  - intros Hin. by right.
  - intros [->|Hin]%elem_of_cons; [by left|]. right. by apply IH.
Qed.

Lemma elem_of_resume_other (t t0 : Task) ts : t ∈ ts -> t <> t0 -> t ∈ resume t0 ts.
Proof.
  induction ts as [|t' ts IH]; [done|]. simpl.
  intros [->|Hin]%elem_of_cons Hne.
  - destruct (decide (t0 = t')) as [->|]; [done|]. by left.
  - destruct (decide (t0 = t')); [done|]. right. by apply IH.
Qed.

(** The narration and the switches leave the caches, the in-flight sets,
    the remote calls and the suspended calls alone. *)
Lemma speakCurrentPage_frame speaking voices st :
  analysisCache (speakCurrentPage speaking voices st) = analysisCache st /\
  ocrTextCache (speakCurrentPage speaking voices st) = ocrTextCache st /\
  processingQueue (speakCurrentPage speaking voices st) = processingQueue st /\
  pendingOCRBatches (speakCurrentPage speaking voices st) = pendingOCRBatches st /\
  remoteCalls (speakCurrentPage speaking voices st) = remoteCalls st /\
  waiting (speakCurrentPage speaking voices st) = waiting st.
Proof.
  unfold speakCurrentPage, speakBubbles, start_page.
  repeat (case_match; simpl; try done).
Qed.

Lemma switches_frame st :
  analysisCache (switch_effect st) = analysisCache st /\
  ocrTextCache (switch_effect st) = ocrTextCache st /\
  processingQueue (switch_effect st) = processingQueue st /\
  pendingOCRBatches (switch_effect st) = pendingOCRBatches st /\
  remoteCalls (switch_effect st) = remoteCalls st /\
  waiting (switch_effect st) = waiting st /\
  analysisCache (unlock_effect st) = analysisCache st /\
  ocrTextCache (unlock_effect st) = ocrTextCache st /\
  processingQueue (unlock_effect st) = processingQueue st /\
  pendingOCRBatches (unlock_effect st) = pendingOCRBatches st /\
  remoteCalls (unlock_effect st) = remoteCalls st /\
  waiting (unlock_effect st) = waiting st.
Proof.
  unfold switch_effect, unlock_effect. repeat (case_match; simpl; try done).
Qed.

(** The suspended calls after a transition: those of before, and the one
    the event suspends. *)
Lemma step_waiting st ev st' t :
  step pages JSON_parse st ev = Some st' ->
  t ∈ waiting st' ->
  t ∈ waiting st \/ suspends pages ev = Some t.
Proof.
  intros Hstep.
  destruct ev as [n| |b|speaking voices|b|n|b|b|b converted|b imgs response
                 |index seen|index urls merged response]; simpl in Hstep.
  - injection Hstep as <-. by left.
  - destruct (isAnalysisEnabled st); injection Hstep as <-; [by left|].
    rewrite (proj1 (proj2 (proj2 (proj2 (proj2 (proj2 (switches_frame _))))))). by left.
  - destruct (Bool.eqb b (ttsEnabled st)); injection Hstep as <-; [by left|].
    rewrite (proj1 (proj2 (proj2 (proj2 (proj2 (proj2 (switches_frame _))))))).
    destruct (switches_frame (set_ttsEnabled b st)) as (_&_&_&_&_&_&_&_&_&_&_&->).
    by left.
  - injection Hstep as <-.
    destruct (speakCurrentPage_frame speaking voices st) as (_&_&_&_&_&->). by left.
  - injection Hstep as <-. unfold preloadBatch. repeat case_match; try by left.
    simpl. intros [Hin| ->%list_elem_of_singleton]%elem_of_app; [by left|by right].
  - unfold image_onload in Hstep. repeat case_match; try done.
    injection Hstep as <-. by left.
  - destruct (is_waiting _ st); [|done]. injection Hstep as <-. simpl.
    intros Hin%elem_of_resume. by left.
  - injection Hstep as <-. unfold analyzeBatch. case_match; [by left|].
    simpl. intros [Hin| ->%list_elem_of_singleton]%elem_of_app; [by left|by right].
  - destruct (is_waiting _ st && _); [|done]. injection Hstep as <-.
    destruct converted as [imgs|msg]; simpl.
    + intros [Hin%elem_of_resume| ->%list_elem_of_singleton]%elem_of_app;
        [by left|by right].
    + intros Hin%elem_of_resume. by left.
  - destruct (is_waiting _ st); [|done]. unfold analyzeBatch_returned in Hstep.
    destruct (as_results _); [|done]. simpl in Hstep. injection Hstep as <-. simpl.
    intros Hin%elem_of_resume. by left.
  - injection Hstep as <-. unfold requestOCRForPage. repeat case_match; try by left.
    simpl. intros [Hin| ->%list_elem_of_singleton]%elem_of_app; [by left|by right].
  - destruct (is_waiting _ st); [|done]. injection Hstep as <-.
    unfold requestOCRForPage_settled. case_match; simpl;
      intros Hin%elem_of_resume; by left.
Qed.

(** A suspended call stays suspended until the event that resumes it. *)
Lemma step_keeps_waiting st ev st' t :
  step pages JSON_parse st ev = Some st' ->
  t ∈ waiting st ->
  resumes ev <> Some t ->
  t ∈ waiting st'.
Proof.
  intros Hstep Hin Hres.
  destruct ev as [n| |b|speaking voices|b|n|b|b|b converted|b imgs response
                 |index seen|index urls merged response]; simpl in Hstep, Hres.
  - by injection Hstep as <-.
  - destruct (isAnalysisEnabled st); injection Hstep as <-; [done|].
    by rewrite (proj1 (proj2 (proj2 (proj2 (proj2 (proj2 (switches_frame _))))))).
  - destruct (Bool.eqb b (ttsEnabled st)); injection Hstep as <-; [done|].
    rewrite (proj1 (proj2 (proj2 (proj2 (proj2 (proj2 (switches_frame _))))))).
    by destruct (switches_frame (set_ttsEnabled b st)) as (_&_&_&_&_&_&_&_&_&_&_&->).
  - injection Hstep as <-.
    by destruct (speakCurrentPage_frame speaking voices st) as (_&_&_&_&_&->).
  - injection Hstep as <-. unfold preloadBatch. repeat case_match; try done.
    simpl. apply elem_of_app. by left.
  - unfold image_onload in Hstep. repeat case_match; try done.
    by injection Hstep as <-.
  - destruct (is_waiting _ st); [|done]. injection Hstep as <-. simpl.
    apply elem_of_resume_other; [done|congruence].
  - injection Hstep as <-. unfold analyzeBatch. case_match; [done|].
    simpl. apply elem_of_app. by left.
  - destruct (is_waiting _ st && _); [|done]. injection Hstep as <-.
    destruct converted as [imgs|msg]; simpl.
    + apply elem_of_app. left. apply elem_of_resume_other; [done|congruence].
    + apply elem_of_resume_other; [done|congruence].
  - destruct (is_waiting _ st); [|done]. unfold analyzeBatch_returned in Hstep.
    destruct (as_results _); [|done]. simpl in Hstep. injection Hstep as <-. simpl.
    apply elem_of_resume_other; [done|congruence].
  - injection Hstep as <-. unfold requestOCRForPage. repeat case_match; try done.
    simpl. apply elem_of_app. by left.
  - destruct (is_waiting _ st); [|done]. injection Hstep as <-.
    unfold requestOCRForPage_settled. case_match; simpl;
      (apply elem_of_resume_other; [done|congruence]).
Qed.

End Frames.

Section SessionInvariants.

Variable pages : list string.
Variable JSON_parse : string -> outcome value.

Lemma step_ocr_frame st ev st' :
  step pages JSON_parse st ev = Some st' ->
  is_ocr_event ev = false ->
  pendingOCRBatches st' = pendingOCRBatches st /\ ocrTextCache st' = ocrTextCache st.
Proof.
  intros Hstep Hev.
  destruct ev as [n| |b|speaking voices|b|n|b|b|b converted|b imgs response
                 |index seen|index urls merged response]; simpl in Hstep; try done.
  - by injection Hstep as <-.
  - destruct (isAnalysisEnabled st); injection Hstep as <-; [done|].
    by destruct (switches_frame (set_isAnalysisEnabled true st)) as (_&->&_&->&_).
  - destruct (Bool.eqb b (ttsEnabled st)); injection Hstep as <-; [done|].
    destruct (switches_frame (unlock_effect (set_ttsEnabled b st))) as (_&->&_&->&_).
    by destruct (switches_frame (set_ttsEnabled b st)) as (_&_&_&_&_&_&_&->&_&->&_).
  - injection Hstep as <-.
    by destruct (speakCurrentPage_frame speaking voices st) as (_&->&_&->&_).
  - injection Hstep as <-. unfold preloadBatch. by repeat case_match.
  - unfold image_onload in Hstep. repeat case_match; try done.
    by injection Hstep as <-.
  - destruct (is_waiting _ st); [|done]. by injection Hstep as <-.
  - injection Hstep as <-. unfold analyzeBatch. by case_match.
  - destruct (is_waiting _ st && _); [|done]. injection Hstep as <-.
    by destruct converted.
  - destruct (is_waiting _ st); [|done]. unfold analyzeBatch_returned in Hstep.
    destruct (as_results _); [|done]. simpl in Hstep. by injection Hstep as <-.
Qed.

Lemma step_analysis_frame st ev st' :
  step pages JSON_parse st ev = Some st' ->
  writes_analysis ev = false ->
  analysisCache st' = analysisCache st.
Proof.
  intros Hstep Hev.
  destruct ev as [n| |b|speaking voices|b|n|b|b|b converted|b imgs response
                 |index seen|index urls merged response]; simpl in Hstep; try done.
  - by injection Hstep as <-.
  - destruct (isAnalysisEnabled st); injection Hstep as <-; [done|].
    by destruct (switches_frame (set_isAnalysisEnabled true st)) as (->&_).
  - destruct (Bool.eqb b (ttsEnabled st)); injection Hstep as <-; [done|].
    destruct (switches_frame (unlock_effect (set_ttsEnabled b st))) as (->&_).
    by destruct (switches_frame (set_ttsEnabled b st)) as (_&_&_&_&_&_&->&_).
  - injection Hstep as <-.
    by destruct (speakCurrentPage_frame speaking voices st) as (->&_).
  - unfold image_onload in Hstep. repeat case_match; try done.
    by injection Hstep as <-.
  - destruct (is_waiting _ st); [|done]. by injection Hstep as <-.
  - injection Hstep as <-. apply requestOCRForPage_analysisCache.
  - destruct (is_waiting _ st); [|done]. injection Hstep as <-.
    apply requestOCRForPage_settled_analysisCache.
Qed.

(** A key of [pendingOCRBatches] always has a request behind it. *)
Lemma step_pending st ev st' :
  step pages JSON_parse st ev = Some st' ->
  (forall index, index ∈ pendingOCRBatches st ->
                 exists urls, OcrWaiting index urls ∈ waiting st) ->
  forall index, index ∈ pendingOCRBatches st' ->
                exists urls, OcrWaiting index urls ∈ waiting st'.
Proof.
  intros Hstep Hinv k Hk.
  destruct (is_ocr_event ev) eqn:Hev.
  - destruct ev as [n| |b|speaking voices|b|n|b|b|b converted|b imgs response
                   |index seen|index urls merged response]; try done;
      simpl in Hstep.
    + injection Hstep as <-. revert Hk. unfold requestOCRForPage.
      repeat case_match; simpl; intros Hk.
      * apply elem_of_difference in Hk as [Hk _]. by apply Hinv.
      * apply elem_of_difference in Hk as [Hk _]. by apply Hinv.
      * apply elem_of_difference in Hk as [Hk Hne]. apply elem_of_union in Hk as [Hk|Hk];
          [done|by apply Hinv].
      * apply elem_of_union in Hk as [->%elem_of_singleton|Hk].
        -- eexists. apply elem_of_app. right. apply list_elem_of_singleton. done.
        -- destruct (Hinv k Hk) as [urls Hin]. exists urls. apply elem_of_app. by left.
    + destruct (is_waiting _ st); [|done]. injection Hstep as <-.
      assert (Hk' : k ∈ pendingOCRBatches st /\ k <> index).
      { revert Hk. unfold requestOCRForPage_settled. case_match; simpl; set_solver. }
      destruct Hk' as [Hk' Hne]. destruct (Hinv k Hk') as [urls' Hin]. exists urls'.
      assert (Hw : waiting (requestOCRForPage_settled JSON_parse index urls merged response st)
                   = resume (OcrWaiting index urls) (waiting st)).
      { unfold requestOCRForPage_settled. by case_match. }
      rewrite Hw. apply elem_of_resume_other; [done|congruence].
  - destruct (step_ocr_frame st ev st' Hstep Hev) as [Hp _]. rewrite Hp in Hk.
    destruct (Hinv k Hk) as [urls Hin]. exists urls.
    eapply step_keeps_waiting; [done|done|].
    destruct ev; try done; simpl; congruence.
Qed.

Lemma store_texts_lookup absoluteIndex texts (next : gmap nat value) j v :
  store_texts absoluteIndex texts next !! j = Some v ->
  next !! j = Some v \/ exists t, v = or_else t (VStr "").
Proof.
  revert absoluteIndex next. induction texts as [|t rest IH]; intros a next; [by left|].
  simpl. intros [Hin|Hnew]%IH; [|by right].
  destruct (decide (a = j)) as [->|Hne].
  - rewrite lookup_insert_eq in Hin. injection Hin as <-. right. by exists t.
  - rewrite lookup_insert_ne in Hin by done. by left.
Qed.

Lemma step_texts_sound st ev st' :
  step pages JSON_parse st ev = Some st' ->
  texts_sound pages st -> texts_sound pages st'.
Proof.
  intros Hstep [Htasks Hcache]. split.
  - intros index urls Hin.
    destruct (step_waiting pages JSON_parse st ev st' _ Hstep Hin) as [Hold|Hnew];
      [by apply Htasks|].
    destruct ev; try done; simpl in Hnew; try congruence.
    by destruct converted.
  - intros j v Hj.
    destruct ev as [n| |b|speaking voices|b|n|b|b|b converted|b imgs response
                   |index seen|index urls merged response];
      try (destruct (step_ocr_frame st _ st' Hstep eq_refl) as [_ Hc];
           rewrite Hc in Hj; by apply Hcache).
    + simpl in Hstep. injection Hstep as <-.
      assert (Hc : ocrTextCache (requestOCRForPage pages index seen st) = ocrTextCache st).
      { unfold requestOCRForPage. by repeat case_match. }
      rewrite Hc in Hj. by apply Hcache.
    + simpl in Hstep. destruct (is_waiting _ st) eqn:Hw; [|done].
      apply is_waiting_elem_of, Htasks in Hw as ->. injection Hstep as <-.
      split.
      * destruct (decide (j < length pages)) as [|Hge]; [done|].
        rewrite ocr_texts_clipped in Hj by lia. by apply Hcache in Hj as [? _].
      * revert Hj. unfold requestOCRForPage_settled.
        destruct (performBatchedOCR _ _ _ _) as [texts|msg]; simpl.
        -- intros [Hold|[t ->]]%store_texts_lookup; [by apply Hcache in Hold as [_ ?]|].
           unfold or_else. destruct (truthy t) eqn:Ht; [by right|by left].
        -- intros Hold. by apply Hcache in Hold as [_ ?].
Qed.

Lemma insert_bubbles_only_when_complete cache i entry :
  status entry = complete \/ bubbles entry = [] ->
  bubbles_only_when_complete cache ->
  bubbles_only_when_complete (<[i := entry]> cache).
Proof.
  intros Hentry Hcache j e. destruct (decide (i = j)) as [->|Hne].
  - rewrite lookup_insert_eq. intros [= <-] Hs. by destruct Hentry.
  - rewrite lookup_insert_ne by done. apply Hcache.
Qed.

Lemma mark_range_bubbles s startPage endPage cache :
  bubbles_only_when_complete cache ->
  bubbles_only_when_complete (mark_range s startPage endPage cache).
Proof.
  unfold mark_range. generalize (page_range startPage endPage) as l. intros l.
  revert cache. induction l as [|i l IH]; intros cache Hc; [done|].
  simpl. apply IH. unfold mark.
  repeat case_match; try done; apply insert_bubbles_only_when_complete; auto.
Qed.

Lemma mark_failed_bubbles startPage endPage cache :
  bubbles_only_when_complete cache ->
  bubbles_only_when_complete (mark_failed startPage endPage cache).
Proof.
  unfold mark_failed. generalize (page_range startPage endPage) as l. intros l.
  revert cache. induction l as [|i l IH]; intros cache Hc; [done|].
  simpl. apply IH. apply insert_bubbles_only_when_complete; auto.
Qed.

Lemma store_results_bubbles absoluteIndex batchResults cache :
  bubbles_only_when_complete cache ->
  bubbles_only_when_complete (store_results absoluteIndex batchResults cache).
Proof.
  revert absoluteIndex cache. induction batchResults as [|bs rest IH];
    intros a cache Hc; [done|].
  simpl. apply IH. apply insert_bubbles_only_when_complete; auto.
Qed.

Lemma step_bubbles st ev st' :
  step pages JSON_parse st ev = Some st' ->
  bubbles_only_when_complete (analysisCache st) ->
  bubbles_only_when_complete (analysisCache st').
Proof.
  intros Hstep Hinv.
  destruct (writes_analysis ev) eqn:Hev;
    [|by rewrite (step_analysis_frame st ev st' Hstep Hev)].
  destruct ev as [n| |b|speaking voices|b|n|b|b|b converted|b imgs response
                 |index seen|index urls merged response]; try done; simpl in Hstep.
  - injection Hstep as <-. unfold preloadBatch. repeat case_match; try done.
    simpl. by apply mark_range_bubbles.
  - injection Hstep as <-. unfold analyzeBatch. case_match; [done|].
    simpl. by apply mark_range_bubbles.
  - destruct (is_waiting _ st && _); [|done]. injection Hstep as <-.
    destruct converted; simpl; [done|]. by apply mark_failed_bubbles.
  - destruct (is_waiting _ st); [|done]. unfold analyzeBatch_returned in Hstep.
    destruct (as_results _); [|done]. simpl in Hstep. injection Hstep as <-. simpl.
    by apply store_results_bubbles.
Qed.

Lemma step_quiet st ev st' :
  step pages JSON_parse st ev = Some st' ->
  is_user_request ev = false ->
  quiet st -> quiet st'.
Proof.
  intros Hstep Hev [Hcalls Hwait]. split.
  - destruct ev as [n| |b|speaking voices|b|n|b|b|b converted|b imgs response
                   |index seen|index urls merged response]; try done; simpl in Hstep.
    + by injection Hstep as <-.
    + destruct (isAnalysisEnabled st); injection Hstep as <-; [done|].
      by destruct (switches_frame (set_isAnalysisEnabled true st)) as (_&_&_&_&->&_).
    + destruct (Bool.eqb b (ttsEnabled st)); injection Hstep as <-; [done|].
      destruct (switches_frame (unlock_effect (set_ttsEnabled b st))) as (_&_&_&_&->&_).
      by destruct (switches_frame (set_ttsEnabled b st)) as (_&_&_&_&_&_&_&_&_&_&->&_).
    + injection Hstep as <-.
      by destruct (speakCurrentPage_frame speaking voices st) as (_&_&_&_&->&_).
    + injection Hstep as <-. unfold preloadBatch. by repeat case_match.
    + unfold image_onload in Hstep. repeat case_match; try done.
      by injection Hstep as <-.
    + destruct (is_waiting _ st); [|done]. by injection Hstep as <-.
    + destruct (is_waiting _ st) eqn:Hw; [|done].
      apply is_waiting_elem_of, Hwait in Hw as [b' Hb']. done.
    + destruct (is_waiting _ st) eqn:Hw; [|done].
      apply is_waiting_elem_of, Hwait in Hw as [b' Hb']. done.
    + destruct (is_waiting _ st) eqn:Hw; [|done].
      apply is_waiting_elem_of, Hwait in Hw as [b' Hb']. done.
  - intros t Hin.
    destruct (step_waiting pages JSON_parse st ev st' _ Hstep Hin) as [Hold|Hnew];
      [by apply Hwait|].
    destruct ev as [n| |b|speaking voices|b|n|b|b|b converted|b imgs response
                   |index seen|index urls merged response]; try done; simpl in Hnew.
    + injection Hnew as <-. by exists b.
    + simpl in Hstep. destruct (is_waiting _ st) eqn:Hw; [|done].
      apply is_waiting_elem_of, Hwait in Hw as [b' Hb']. done.
Qed.

End SessionInvariants.

(** ** [Reader.tsx]: what holds in every state of a session *)

(** X8: in every state of a session the in-flight set of the vision
    batches holds exactly the batch indices of the suspended calls of
    [preloadBatch] and [analyzeBatch], and no two suspended calls have the
    same index: a vision batch is never processed twice at a time, and no
    key stays behind when its call has ended. *)
Theorem vision_batch_in_flight_once (pages : list string)
    (JSON_parse : string -> outcome value) (st : State) :
  reachable pages JSON_parse st ->
  NoDup (vision_keys (waiting st)) /\
  forall b, b ∈ processingQueue st <-> b ∈ vision_keys (waiting st).
Proof. apply reachable_tracks. Qed.

Lemma vision_batch_in_flight_once_witness :
  NoDup (vision_keys (waiting reanalysing)) /\
  forall b, b ∈ processingQueue reanalysing <-> b ∈ vision_keys (waiting reanalysing).
Proof.
  apply (vision_batch_in_flight_once three_pages MiniJSON.parse).
  exists to_reanalysing. vm_compute. reflexivity.
Defined.

(** X9: in every state of a session a key of [pendingOCRBatches] has a
    request that is still waiting for [performBatchedOCR]: the [finally]
    block leaves no key behind that would block a batch for good. *)
Theorem pending_key_has_a_request (pages : list string)
    (JSON_parse : string -> outcome value) (st : State) (index : nat) :
  reachable pages JSON_parse st ->
  index ∈ pendingOCRBatches st ->
  exists urls, OcrWaiting index urls ∈ waiting st.
Proof.
  intros Hreach. revert index.
  apply (reachable_invariant pages JSON_parse
           (fun st => forall index, index ∈ pendingOCRBatches st ->
                                    exists urls, OcrWaiting index urls ∈ waiting st));
    [|by eauto using step_pending|done].
  intros index Hin. by apply elem_of_empty in Hin.
Qed.

Lemma pending_key_has_a_request_witness :
  exists urls, OcrWaiting 0 urls ∈ waiting (requestOCRForPage three_pages 0 ∅ initial).
Proof.
  apply (pending_key_has_a_request three_pages MiniJSON.parse).
  - exists [CallRequestOCR 0 ∅]. reflexivity.
  - apply (bool_decide_unpack _). vm_compute. exact I.
Defined.

(** X10: in every state of a session the text cache has entries for
    pages of the manga only, and each entry is the empty string or a truthy
    value. *)
Theorem text_cache_holds_pages_only (pages : list string)
    (JSON_parse : string -> outcome value) (st : State) (j : nat) (v : value) :
  reachable pages JSON_parse st ->
  ocrTextCache st !! j = Some v ->
  j < length pages /\ (v = VStr "" \/ truthy v = true).
Proof.
  intros Hreach.
  assert (Hsound : texts_sound pages st).
  { revert Hreach. apply reachable_invariant; [|by eauto using step_texts_sound].
    split; [intros index urls Hin; by apply elem_of_nil in Hin|].
    intros j' v' Hj. cbn in Hj. by rewrite lookup_empty in Hj. }
  apply Hsound.
Qed.

Lemma text_cache_holds_pages_only_witness :
  1 < length three_pages /\ (VStr "" = VStr "" \/ truthy (VStr "") = true).
Proof.
  apply (text_cache_holds_pages_only three_pages MiniJSON.parse narrating).
  - exists to_narrating. vm_compute. reflexivity.
  - vm_compute. reflexivity.
Defined.

(** X11: in every state of a session only the complete entries of the
    analysis cache carry bubbles: a page that is preloaded, loading or in
    error has the empty bubble list. *)
Theorem bubbles_only_on_complete_pages (pages : list string)
    (JSON_parse : string -> outcome value) (st : State) (j : nat)
    (entry : PageAnalysisEntry) :
  reachable pages JSON_parse st ->
  analysisCache st !! j = Some entry ->
  status entry <> complete ->
  bubbles entry = [].
Proof.
  intros Hreach. revert j entry.
  apply (reachable_invariant pages JSON_parse
           (fun st => bubbles_only_when_complete (analysisCache st)));
    [|by eauto using step_bubbles|done].
  intros j entry Hj. cbn in Hj. by rewrite lookup_empty in Hj.
Qed.

Lemma bubbles_only_on_complete_pages_witness :
  bubbles (mkEntry [] preloaded) = [].
Proof.
  apply (bubbles_only_on_complete_pages three_pages MiniJSON.parse
           (preloadBatch three_pages 0 initial) 0 (mkEntry [] preloaded)).
  - exists [CallPreloadBatch 0]. reflexivity.
  - vm_compute. reflexivity.
  - discriminate.
Defined.

Section Quiet.

Variable pages : list string.
Variable JSON_parse : string -> outcome value.

Lemma run_quiet evs st st' :
  run pages JSON_parse st evs = Some st' ->
  forallb (fun ev => negb (is_user_request ev)) evs = true ->
  quiet st -> quiet st'.
Proof.
  revert st. induction evs as [|ev evs IH]; intros st; simpl.
  - by intros [= <-].
  - destruct (step pages JSON_parse st ev) as [st1|] eqn:Hstep; [|done].
    intros Hrun [Hev Hevs]%andb_prop Hq. apply negb_true_iff in Hev.
    eapply IH; [done|done|]. by eapply step_quiet.
Qed.

End Quiet.

(** X12: a session makes no remote call unless the user asks for one:
    after any sequence of events without a click on the analysis button or
    on the extract button (page turns, switches, narration, preloads and
    their completions), no call of [analyzeMangaPages] or
    [performBatchedOCR] has been made. *)
Theorem no_remote_call_without_request (pages : list string)
    (JSON_parse : string -> outcome value) (evs : list Event) (st : State) :
  run pages JSON_parse initial evs = Some st ->
  forallb (fun ev => negb (is_user_request ev)) evs = true ->
  remoteCalls st = [].
Proof.
  intros Hrun Hevs.
  apply (run_quiet pages JSON_parse evs initial st Hrun Hevs).
  split; [done|]. intros t Hin. by apply elem_of_nil in Hin.
Qed.

Lemma no_remote_call_without_request_witness :
  remoteCalls
    (default initial
       (run three_pages MiniJSON.parse initial
          [CallPreloadBatch 0; ImageLoaded 0; SetCurrentIndex 1; PreloadSettled 0;
           SetTtsEnabled true; CallSpeakCurrentPage false []]))
  = [].
Proof.
  apply (no_remote_call_without_request three_pages MiniJSON.parse
           [CallPreloadBatch 0; ImageLoaded 0; SetCurrentIndex 1; PreloadSettled 0;
            SetTtsEnabled true; CallSpeakCurrentPage false []]).
  - vm_compute. reflexivity.
  - reflexivity.
Defined.

(** ** [Reader.tsx]: the course of a vision batch *)

Section VisionBatch.

Variable pages : list string.
Variable JSON_parse : string -> outcome value.

Lemma foldl_mark_fixed s l cache j :
  s <> complete -> cache !! j = Some (mkEntry [] s) ->
  foldl (mark s) cache l !! j = Some (mkEntry [] s).
Proof.
  intros Hs. revert cache. induction l as [|i l IH]; intros cache Hj; [done|].
  simpl. apply IH. destruct (decide (i = j)) as [->|Hne].
  - unfold mark. rewrite Hj. cbn [status].
    destruct (is_complete s) eqn:Hc; [by destruct s|]. by rewrite lookup_insert_eq.
  - by rewrite mark_other.
Qed.

(** A marking pass gives every page of the range the status of the pass
    and no bubbles, the complete pages apart. *)
Lemma mark_range_inside s startPage endPage cache j :
  s <> complete -> startPage <= j < endPage ->
  mark_range s startPage endPage cache !! j
  = match cache !! j with
    | Some entry => if is_complete (status entry) then Some entry else Some (mkEntry [] s)
    | None => Some (mkEntry [] s)
    end.
Proof.
  intros Hs Hj%elem_of_page_range. unfold mark_range.
  revert Hj. generalize (page_range startPage endPage) as l. intros l.
  revert cache. induction l as [|i l IH]; intros cache Hin; [by apply elem_of_nil in Hin|].
  simpl. destruct (decide (i = j)) as [->|Hne].
  - unfold mark at 2. destruct (cache !! j) as [entry|] eqn:Hentry.
    + destruct (is_complete (status entry)) eqn:Hc.
      * apply foldl_mark_complete; [done|]. by destruct (status entry).
      * apply foldl_mark_fixed; [done|]. by rewrite lookup_insert_eq.
    + apply foldl_mark_fixed; [done|]. by rewrite lookup_insert_eq.
  - apply elem_of_cons in Hin as [->|Hin]; [done|].
    rewrite IH by done. by rewrite mark_other.
Qed.

Lemma mark_failed_inside startPage endPage cache j :
  startPage <= j < endPage ->
  mark_failed startPage endPage cache !! j = Some (mkEntry [] error).
Proof.
  intros Hj%elem_of_page_range. unfold mark_failed.
  revert Hj. generalize (page_range startPage endPage) as l. intros l.
  assert (Hfixed : forall (l : list nat) (cache : gmap nat PageAnalysisEntry),
             cache !! j = Some (mkEntry [] error) ->
             foldl (fun nextState i => <[i := mkEntry [] error]> nextState) cache l !! j
             = Some (mkEntry [] error)).
  { clear. intros l. induction l as [|i l IH]; intros cache Hc; [done|].
    simpl. apply IH. destruct (decide (i = j)) as [->|Hne].
    - by rewrite lookup_insert_eq.
    - by rewrite lookup_insert_ne. }
  revert cache. induction l as [|i l IH]; intros cache Hin; [by apply elem_of_nil in Hin|].
  simpl. destruct (decide (i = j)) as [->|Hne].
  - apply Hfixed. by rewrite lookup_insert_eq.
  - apply elem_of_cons in Hin as [->|Hin]; [done|]. by apply IH.
Qed.

End VisionBatch.

(** X13: when the batch of [batchIndex] is not in flight, the start of
    [analyzeBatch] puts every page of the batch that is not complete to
    [loading] with no bubbles, whatever its status was, and leaves the
    complete pages and the pages of the other batches as they were. *)
Theorem analyzeBatch_marks_the_batch (pages : list string) (st : State)
    (batchIndex j : nat) :
  batchIndex ∉ processingQueue st ->
  (batchIndex * BATCH_SIZE <= j < Nat.min (batchIndex * BATCH_SIZE + BATCH_SIZE) (length pages) ->
   analysisCache (analyzeBatch pages batchIndex st) !! j
   = match analysisCache st !! j with
     | Some entry =>
         if is_complete (status entry) then Some entry else Some (mkEntry [] loading)
     | None => Some (mkEntry [] loading)
     end) /\
  (~ (batchIndex * BATCH_SIZE <= j < Nat.min (batchIndex * BATCH_SIZE + BATCH_SIZE) (length pages)) ->
   analysisCache (analyzeBatch pages batchIndex st) !! j = analysisCache st !! j).
Proof.
  intros Hq. unfold analyzeBatch. rewrite bool_decide_eq_false_2 by done. simpl. split.
  - intros Hj. by apply mark_range_inside.
  - intros Hj. by apply mark_range_outside.
Qed.

Lemma analyzeBatch_marks_the_batch_witness :
  analysisCache (analyzeBatch three_pages 0 analysed) !! 0
  = Some (mkEntry [mkBubble "Hi" (mkBox 10 300 60 400)] complete).
Proof.
  refine (proj1 (analyzeBatch_marks_the_batch three_pages analysed 0 0 _) _).
  - apply (bool_decide_unpack _). vm_compute. exact I.
  - unfold BATCH_SIZE. simpl. lia.
Defined.

Section BatchOfThePage.

Lemma page_in_its_batch (i n : nat) :
  i < n ->
  i / BATCH_SIZE * BATCH_SIZE <= i < Nat.min (i / BATCH_SIZE * BATCH_SIZE + BATCH_SIZE) n.
Proof.
  intros Hi. unfold BATCH_SIZE.
  pose proof (Nat.div_mod_eq i 4). pose proof (Nat.mod_upper_bound i 4). lia.
Qed.

End BatchOfThePage.



(** X15: when the response of a vision batch has fewer page results than
    the batch has pages, the pages past the results stay as the start of
    the batch left them: a page that was not complete is still [loading]
    once the batch has ended and its key has left the in-flight set. *)
Theorem short_response_leaves_pages_loading (pages : list string)
    (JSON_parse : string -> outcome value) (st st' : State) (batchIndex j : nat)
    (imgs : list string) (response : reply) (batchResults : list (list SpeechBubble)) :
  batchIndex ∉ processingQueue st ->
  as_results (analyzeMangaPages JSON_parse imgs response) = Some batchResults ->
  analyzeBatch_returned JSON_parse batchIndex imgs response
    (analyzeBatch_converted pages batchIndex (Returns imgs)
       (analyzeBatch pages batchIndex st)) = Some st' ->
  batchIndex * BATCH_SIZE + length batchResults <= j
    < Nat.min (batchIndex * BATCH_SIZE + BATCH_SIZE) (length pages) ->
  (forall entry, analysisCache st !! j = Some entry -> status entry <> complete) ->
  analysisCache st' !! j = Some (mkEntry [] loading) /\
  batchIndex ∉ processingQueue st'.
Proof.
  intros Hq Hres Hret Hj Hnc. unfold analyzeBatch_returned in Hret.
  rewrite Hres in Hret. cbn [mbind option_bind] in Hret. injection Hret as <-.
  split; [|simpl; set_solver].
  cbn [analysisCache analyzeBatch_finally set_processingQueue set_analysisCache].
  rewrite store_results_after by lia.
  unfold analyzeBatch. rewrite bool_decide_eq_false_2 by done. simpl.
  rewrite mark_range_inside; [|done|lia].
  destruct (analysisCache st !! j) as [entry|] eqn:Hentry; [|done].
  destruct (is_complete (status entry)) eqn:Hc; [|done].
  exfalso. apply (Hnc entry eq_refl). by destruct (status entry).
Qed.

Lemma short_response_leaves_pages_loading_witness :
  analysisCache
    (default initial
       (run three_pages MiniJSON.parse initial (analyse_first_batch "[{}]"))) !! 2
  = Some (mkEntry [] loading).
Proof.
  refine (proj1 (short_response_leaves_pages_loading three_pages MiniJSON.parse initial
                   _ 0 2 three_images (Returns (Some "[{}]")) [[]] _ _ _ _ _)).
  - apply (bool_decide_unpack _). vm_compute. exact I.
  - vm_compute. reflexivity.
  - vm_compute. reflexivity.
  - unfold BATCH_SIZE. simpl. lia.
  - intros entry Hentry. vm_compute in Hentry. discriminate.
Defined.

(** X16: when the conversions of a vision batch fail, every page of the
    batch is set to [error] with no bubbles, the complete ones included,
    the pages of the other batches are left as they were, no remote call
    is made and the key leaves the in-flight set. *)
Theorem failed_batch_marks_every_page (pages : list string) (st : State)
    (batchIndex j : nat) (msg : string) :
  (batchIndex * BATCH_SIZE <= j < Nat.min (batchIndex * BATCH_SIZE + BATCH_SIZE) (length pages) ->
   analysisCache (analyzeBatch_converted pages batchIndex (Throws msg) st) !! j
   = Some (mkEntry [] error)) /\
  (~ (batchIndex * BATCH_SIZE <= j < Nat.min (batchIndex * BATCH_SIZE + BATCH_SIZE) (length pages)) ->
   analysisCache (analyzeBatch_converted pages batchIndex (Throws msg) st) !! j
   = analysisCache st !! j) /\
  remoteCalls (analyzeBatch_converted pages batchIndex (Throws msg) st) = remoteCalls st /\
  batchIndex ∉ processingQueue (analyzeBatch_converted pages batchIndex (Throws msg) st).
Proof.
  simpl. repeat split.
  - intros Hj. by apply mark_failed_inside.
  - intros Hj. by apply mark_failed_outside.
  - set_solver.
Qed.

Lemma failed_batch_marks_every_page_witness :
  analysisCache (analyzeBatch_converted three_pages 0 (Throws "Failed to fetch")
                   (analyzeBatch three_pages 0 analysed)) !! 0
  = Some (mkEntry [] error).
Proof.
  refine (proj1 (failed_batch_marks_every_page three_pages
                   (analyzeBatch three_pages 0 analysed) 0 0 "Failed to fetch") _).
  unfold BATCH_SIZE. simpl. lia.
Defined.

(** ** [Reader.tsx]: the course of an OCR batch *)



(** X18: when [performBatchedOCR] returns, every requested page gets its
    entry in the text cache, the text returned for it or the empty string,
    and the entries of the other pages and the error are left as they were;
    when it throws, the text cache is left as it was and the message
    becomes the error on display. *)
Theorem ocr_request_settles (JSON_parse : string -> outcome value) (st : State)
    (index : nat) (urls : list string) (merged : outcome string) (response : reply) :
  (forall texts,
      performBatchedOCR JSON_parse urls merged response = Returns texts ->
      (forall r, r < length urls ->
                 exists t, texts !! r = Some t /\
                           ocrTextCache (requestOCRForPage_settled JSON_parse index urls
                                           merged response st) !! (index + r)
                           = Some (or_else t (VStr ""))) /\
      (forall j, j < index \/ index + length urls <= j ->
                 ocrTextCache (requestOCRForPage_settled JSON_parse index urls
                                 merged response st) !! j
                 = ocrTextCache st !! j) /\
      debugError (requestOCRForPage_settled JSON_parse index urls merged response st)
      = debugError st) /\
  (forall msg,
      performBatchedOCR JSON_parse urls merged response = Throws msg ->
      ocrTextCache (requestOCRForPage_settled JSON_parse index urls merged response st)
      = ocrTextCache st /\
      debugError (requestOCRForPage_settled JSON_parse index urls merged response st)
      = Some msg).
Proof.
  unfold requestOCRForPage_settled. split.
  - intros texts Hocr. rewrite Hocr. simpl.
    pose proof (performBatchedOCR_length _ _ _ _ _ Hocr) as Hlen.
    repeat split.
    + intros r Hr. destruct (lookup_lt_is_Some_2 texts r) as [t Ht]; [lia|].
      exists t. split; [done|]. by apply store_texts_at.
    + intros j Hj. apply store_texts_outside. lia.
  - intros msg Hocr. by rewrite Hocr.
Qed.

Lemma ocr_request_settles_witness :
  ocrTextCache (requestOCRForPage_settled MiniJSON.parse 0 three_pages
                  (Returns "merged") (Returns (Some "oops"))
                  (requestOCRForPage three_pages 0 ∅ initial))
  = ocrTextCache (requestOCRForPage three_pages 0 ∅ initial) /\
  debugError (requestOCRForPage_settled MiniJSON.parse 0 three_pages
                (Returns "merged") (Returns (Some "oops"))
                (requestOCRForPage three_pages 0 ∅ initial))
  = Some (parse_failure "Unexpected token or end of JSON input" "oops").
Proof.
  apply (ocr_request_settles MiniJSON.parse (requestOCRForPage three_pages 0 ∅ initial)
           0 three_pages (Returns "merged") (Returns (Some "oops"))).
  vm_compute. reflexivity.
Defined.

(** ** [Reader.tsx]: narration *)

Section Speaking.

Lemma trim_nonempty t :
  trim t <> EmptyString ->
  negb (string_empty t) && Nat.ltb 0 (String.length (trim t)) = true.
Proof.
  intros Ht. destruct t as [|c t]; [done|]. cbn [string_empty negb andb].
  destruct (trim (String c t)); [done|]. done.
Qed.

Lemma trim_empty t :
  trim t = EmptyString ->
  negb (string_empty t) && Nat.ltb 0 (String.length (trim t)) = false.
Proof. intros ->. apply andb_false_r. Qed.

End Speaking.

(** X19: with narration and analysis on, a cached text that is not blank
    is spoken as one utterance, the whole text at volume 1 with the voice
    picked, unless the page is the one already being spoken; the page is
    recorded as the last one spoken, and the bubbles of the page are not
    spoken, whatever the analysis cache holds. *)
Theorem cached_text_spoken_as_one_utterance (st : State) (speaking : bool)
    (voices : list Voice) (t : string) :
  ttsEnabled st = true ->
  isAnalysisEnabled st = true ->
  ocrTextCache st !! currentIndex st = Some (VStr t) ->
  trim t <> EmptyString ->
  (lastSpokenPageIndex st = Some (currentIndex st) -> speaking = false) ->
  utterances (speakCurrentPage speaking voices st)
  = (utterances st ++ [mkUtterance t 1 (pick_voice voices)])%list /\
  lastSpokenPageIndex (speakCurrentPage speaking voices st) = Some (currentIndex st).
Proof.
  intros Htts Han Hcached Ht Hfirst. unfold speakCurrentPage, cached.
  rewrite Htts, Han, Hcached. cbn [negb orb default from_option id].
  rewrite trim_nonempty by done.
  assert (Hgo : bool_decide (lastSpokenPageIndex st = Some (currentIndex st)) && speaking
                = false).
  { destruct (bool_decide _) eqn:Hd; [|done].
    apply bool_decide_eq_true_1 in Hd. by rewrite Hfirst. }
  rewrite Hgo. cbv zeta. split.
  - by rewrite utterances_app, start_page_utterances.
  - unfold start_page. by case_match.
Qed.

Lemma cached_text_spoken_as_one_utterance_witness :
  utterances
    (speakCurrentPage false []
       (set_ocrTextCache {[0 := VStr "Hello"]} narrating))
  = (utterances (set_ocrTextCache {[0 := VStr "Hello"]} narrating)
     ++ [mkUtterance "Hello" 1 (pick_voice [])])%list /\
  lastSpokenPageIndex
    (speakCurrentPage false [] (set_ocrTextCache {[0 := VStr "Hello"]} narrating))
  = Some (currentIndex (set_ocrTextCache {[0 := VStr "Hello"]} narrating)).
Proof.
  apply (cached_text_spoken_as_one_utterance
           (set_ocrTextCache {[0 := VStr "Hello"]} narrating) false [] "Hello").
  - vm_compute. reflexivity.
  - vm_compute. reflexivity.
  - vm_compute. reflexivity.
  - vm_compute. discriminate.
  - reflexivity.
Defined.

(** X20: while the synthesiser is speaking the page on display,
    [speakCurrentPage] sends it nothing, whatever the caches hold: the
    narration of a page is not started again, and the page recorded and
    the active bubble stay the same. *)
Theorem narration_not_restarted (st : State) (voices : list Voice) :
  lastSpokenPageIndex st = Some (currentIndex st) ->
  speech (speakCurrentPage true voices st) = speech st /\
  lastSpokenPageIndex (speakCurrentPage true voices st) = lastSpokenPageIndex st /\
  activeBubbleIndex (speakCurrentPage true voices st) = activeBubbleIndex st.
Proof.
  intros Hlast. unfold speakCurrentPage, speakBubbles.
  rewrite !bool_decide_eq_true_2 by done. cbn [andb].
  repeat case_match; done.
Qed.

Lemma narration_not_restarted_witness :
  speech (speakCurrentPage true [] (speakCurrentPage false [] narrating))
  = speech (speakCurrentPage false [] narrating) /\
  lastSpokenPageIndex (speakCurrentPage true [] (speakCurrentPage false [] narrating))
  = lastSpokenPageIndex (speakCurrentPage false [] narrating) /\
  activeBubbleIndex (speakCurrentPage true [] (speakCurrentPage false [] narrating))
  = activeBubbleIndex (speakCurrentPage false [] narrating).
Proof.
  apply (narration_not_restarted (speakCurrentPage false [] narrating) []).
  vm_compute. reflexivity.
Defined.

(** X21: a cached text made of white space only is treated like the empty
    one: [speakCurrentPage] does exactly what the bubble-based narration
    does. *)
Theorem blank_text_falls_back_to_bubbles (st : State) (speaking : bool)
    (voices : list Voice) (t : string) :
  ttsEnabled st = true ->
  isAnalysisEnabled st = true ->
  ocrTextCache st !! currentIndex st = Some (VStr t) ->
  trim t = EmptyString ->
  speakCurrentPage speaking voices st = speakBubbles speaking voices st.
Proof.
  intros Htts Han Hcached Ht. unfold speakCurrentPage, cached.
  rewrite Htts, Han, Hcached. cbn [negb orb default from_option id].
  by rewrite trim_empty.
Qed.

Lemma blank_text_falls_back_to_bubbles_witness :
  speakCurrentPage false []
    (set_ocrTextCache {[0 := VStr (String " " (String LF " "))]} narrating)
  = speakBubbles false []
      (set_ocrTextCache {[0 := VStr (String " " (String LF " "))]} narrating).
Proof.
  apply (blank_text_falls_back_to_bubbles
           (set_ocrTextCache {[0 := VStr (String " " (String LF " "))]} narrating)
           false [] (String " " (String LF " "))).
  - vm_compute. reflexivity.
  - vm_compute. reflexivity.
  - vm_compute. reflexivity.
  - vm_compute. reflexivity.
Defined.

(** X22: a cached value that is truthy and not a string, such as a number
    of the response, is neither spoken nor skipped: the narration reports
    an error, says nothing and does not go on to the bubbles. *)
Theorem cached_value_not_a_string (st : State) (speaking : bool)
    (voices : list Voice) (v : value) :
  ttsEnabled st = true ->
  isAnalysisEnabled st = true ->
  ocrTextCache st !! currentIndex st = Some v ->
  truthy v = true ->
  (forall t, v <> VStr t) ->
  speech (speakCurrentPage speaking voices st) = speech st /\
  is_Some (debugError (speakCurrentPage speaking voices st)) /\
  lastSpokenPageIndex (speakCurrentPage speaking voices st) = lastSpokenPageIndex st.
Proof.
  intros Htts Han Hcached Hv Hns. unfold speakCurrentPage, cached.
  rewrite Htts, Han, Hcached. cbn [negb orb default from_option id].
  destruct v; try done; try (rewrite Hv; by repeat split);
    try (cbn [truthy] in Hv |- *; rewrite ?Hv; by repeat split).
  by destruct (Hns s).
Qed.

Lemma cached_value_not_a_string_witness :
  speech (speakCurrentPage false [] (set_ocrTextCache {[0 := VNum 7]} narrating))
  = speech (set_ocrTextCache {[0 := VNum 7]} narrating) /\
  is_Some (debugError
             (speakCurrentPage false [] (set_ocrTextCache {[0 := VNum 7]} narrating))) /\
  lastSpokenPageIndex
    (speakCurrentPage false [] (set_ocrTextCache {[0 := VNum 7]} narrating))
  = lastSpokenPageIndex (set_ocrTextCache {[0 := VNum 7]} narrating).
Proof.
  apply (cached_value_not_a_string (set_ocrTextCache {[0 := VNum 7]} narrating)
           false [] (VNum 7)).
  - vm_compute. reflexivity.
  - vm_compute. reflexivity.
  - vm_compute. reflexivity.
  - reflexivity.
  - discriminate.
Defined.



(** X24: switching narration off cancels the speech at once and forgets
    the page spoken and the active bubble; from then on
    [speakCurrentPage] does nothing. *)
Theorem narration_switched_off (pages : list string)
    (JSON_parse : string -> outcome value) (st st' : State) :
  ttsEnabled st = true ->
  step pages JSON_parse st (SetTtsEnabled false) = Some st' ->
  speech st' = (speech st ++ [Cancel])%list /\
  lastSpokenPageIndex st' = None /\
  activeBubbleIndex st' = None /\
  forall speaking voices, speakCurrentPage speaking voices st' = st'.
Proof.
  intros Htts. simpl. rewrite Htts. cbn [Bool.eqb]. intros [= <-].
  unfold switch_effect, unlock_effect. cbn. by repeat split.
Qed.

Lemma narration_switched_off_witness :
  speech (switch_effect (unlock_effect (set_ttsEnabled false narrating)))
  = (speech narrating ++ [Cancel])%list /\
  lastSpokenPageIndex (switch_effect (unlock_effect (set_ttsEnabled false narrating)))
  = None /\
  activeBubbleIndex (switch_effect (unlock_effect (set_ttsEnabled false narrating)))
  = None /\
  forall speaking voices,
    speakCurrentPage speaking voices
      (switch_effect (unlock_effect (set_ttsEnabled false narrating)))
    = switch_effect (unlock_effect (set_ttsEnabled false narrating)).
Proof.
  apply (narration_switched_off three_pages MiniJSON.parse narrating).
  - vm_compute. reflexivity.
  - vm_compute. reflexivity.
Defined.

(** ** [Reader.tsx]: navigation and the triggers *)

(** X25: on a manga of [n] pages the buttons and the keys keep the index
    of the page inside the manga; going forth and back returns to the
    page, except across the two ends, where the move is held; on a manga
    without page the next index is negative. *)
Theorem navigation_stays_in_the_manga (n i : Z) (key : string) :
  ((0 <= i < n)%Z ->
   (0 <= handleNext n i < n)%Z /\ (0 <= handlePrev i < n)%Z /\
   (0 <= handleKeyDown n key i < n)%Z /\
   ((i < n - 1)%Z -> handlePrev (handleNext n i) = i) /\
   ((0 < i)%Z -> handleNext n (handlePrev i) = i) /\
   handleNext n (n - 1) = (n - 1)%Z /\ handlePrev 0 = 0%Z) /\
  (handleNext 0 i < 0)%Z.
Proof.
  unfold handleKeyDown, handleNext, handlePrev. split; [|lia].
  intros Hi. repeat split; try lia; repeat case_match; lia.
Qed.

Lemma navigation_stays_in_the_manga_witness :
  (0 <= handleKeyDown 3 "ArrowRight" 2 < 3)%Z.
Proof.
  apply (proj1 (navigation_stays_in_the_manga 3 2 "ArrowRight")). lia.
Defined.

(** X26: the batch preloaded for the page on display is the one the page
    belongs to, and the batch after it is set to be preloaded exactly when
    it has a page. *)
Theorem trigger_targets (pages : list string) (currentIndex : nat) :
  currentIndex < length pages ->
  currentIndex ∈ page_range (fst (trigger pages currentIndex) * BATCH_SIZE)
                  (Nat.min (fst (trigger pages currentIndex) * BATCH_SIZE + BATCH_SIZE)
                           (length pages)) /\
  (forall nextBatch,
      snd (trigger pages currentIndex) = Some nextBatch ->
      nextBatch = fst (trigger pages currentIndex) + 1 /\
      page_range (nextBatch * BATCH_SIZE)
        (Nat.min (nextBatch * BATCH_SIZE + BATCH_SIZE) (length pages)) <> []) /\
  (snd (trigger pages currentIndex) = None ->
   page_range ((fst (trigger pages currentIndex) + 1) * BATCH_SIZE)
     (Nat.min ((fst (trigger pages currentIndex) + 1) * BATCH_SIZE + BATCH_SIZE)
              (length pages)) = []).
Proof.
  intros Hi. unfold trigger. cbn [fst snd]. split; [|split].
  - apply elem_of_page_range. by apply page_in_its_batch.
  - intros nextBatch. generalize (currentIndex / BATCH_SIZE) as b. intros b.
    destruct (Nat.ltb_spec ((b + 1) * BATCH_SIZE) (length pages)) as [Hlt|Hge]; [|done].
    intros [= <-]. split; [done|]. unfold page_range, BATCH_SIZE in *.
    intros Hnil%(f_equal length). rewrite length_seq in Hnil. simpl in Hnil. lia.
  - generalize (currentIndex / BATCH_SIZE) as b. intros b.
    destruct (Nat.ltb_spec ((b + 1) * BATCH_SIZE) (length pages)) as [Hlt|Hge]; [done|].
    intros _. unfold page_range.
    replace (Nat.min _ _ - _) with 0 by (unfold BATCH_SIZE in *; lia). done.
Qed.

Lemma trigger_targets_witness :
  2 ∈ page_range (fst (trigger three_pages 2) * BATCH_SIZE)
        (Nat.min (fst (trigger three_pages 2) * BATCH_SIZE + BATCH_SIZE)
                 (length three_pages)).
Proof.
  apply (proj1 (trigger_targets three_pages 2 ltac:(simpl; lia))).
Defined.

(** X27: the look-ahead creates an image for a page exactly when the page
    is one of the three after the page on display, exists with a non-empty
    URL and has no image yet: it never reaches past the last page and never
    loads a page twice. *)
Theorem lookahead_targets (pages : list string) (st : State) (idx : nat) :
  idx ∈ lookahead pages st <->
  currentIndex st < idx <= currentIndex st + 3 /\
  (exists url, pages !! idx = Some url /\ url <> EmptyString) /\
  idx ∉ preloadedImages st.
Proof.
  unfold lookahead. rewrite list_elem_of_In, filter_In, <- list_elem_of_In.
  rewrite !elem_of_cons, elem_of_nil.
  split.
  - intros [Hidx Hok]. split; [lia|].
    destruct (pages !! idx) as [url|]; [|done].
    apply andb_prop in Hok as [Hurl Hpre].
    split.
    + exists url. split; [done|]. by destruct url.
    + apply negb_true_iff, bool_decide_eq_false_1 in Hpre. done.
  - intros (Hidx & (url & -> & Hurl) & Hpre). split; [lia|].
    apply andb_true_intro. split.
    + by destruct url.
    + apply negb_true_iff. by apply bool_decide_eq_false_2.
Qed.

Lemma lookahead_targets_witness :
  2 ∈ lookahead three_pages (set_currentIndex 1 initial).
Proof.
  apply (proj2 (lookahead_targets three_pages (set_currentIndex 1 initial) 2)).
  split; [simpl; lia|]. split.
  - exists "page2.png". split; [reflexivity|discriminate].
  - intros Hin. apply (bool_decide_pack _) in Hin. vm_compute in Hin. exact Hin.
Defined.

(** ** [Reader.tsx]: the order of the bubbles, once more *)

Section SortByKey.

Context {A : Type} (cmp : A -> A -> Z) (f : A -> Z).

Local Open Scope Z_scope.

Lemma ordered_ext (c1 c2 : A -> A -> Z) l :
  (forall a b, c1 a b = c2 a b) -> ordered c1 l -> ordered c2 l.
Proof.
  intros Hext. induction l as [|x l IH]; [done|].
  intros [Hx Hl]. split; [|by apply IH].
  eapply Forall_impl; [done|]. intros y Hy. cbn beta in Hy. by rewrite <- Hext.
Qed.

Lemma insert_sorted_by_key x l :
  (forall b, b ∈ l -> cmp x b = f x - f b) ->
  ordered (fun a b => f a - f b) l ->
  ordered (fun a b => f a - f b) (insert_sorted cmp x l).
Proof.
  induction l as [|y l IH]; intros Hcmp Hord; [by split|].
  destruct Hord as [Hy Hl]. cbn [insert_sorted].
  pose proof (Hcmp y (list_elem_of_here _ _)) as Hxy.
  destruct (Z.leb_spec (cmp x y) 0) as [Hle|Hgt].
  - split; [|by split]. apply Forall_cons. split; [lia|].
    eapply Forall_impl; [done|]. intros z Hz. simpl in Hz. lia.
  - split.
    + rewrite insert_sorted_perm. apply Forall_cons. split; [lia|done].
    + apply IH; [|done]. intros b Hb. apply Hcmp. by right.
Qed.

Lemma sort_by_key l :
  (forall a b, a ∈ l -> b ∈ l -> cmp a b = f a - f b) ->
  ordered (fun a b => f a - f b) (sort cmp l).
Proof.
  induction l as [|x l IH]; intros Hcmp; [done|].
  cbn [sort]. apply insert_sorted_by_key.
  - intros b Hb. apply Hcmp; [by left|]. right.
    by rewrite <- (sort_perm cmp l).
  - apply IH. intros a b Ha Hb. apply Hcmp; by right.
Qed.

End SortByKey.

(** X28: sorting keeps the bubbles of a page, and puts them in a plain
    order in the two cases where the comparison function is one: bubbles
    that all lie within 50 of each other come out from right to left, by
    descending [xmin]; bubbles that lie more than 50 apart from each other
    come out from top to bottom, by ascending [ymin]. *)
Theorem bubbles_in_line_or_apart (l : list SpeechBubble) :
  Permutation (sort compareBubbles l) l /\
  ((forall a b, a ∈ l -> b ∈ l ->
                (Z.abs (ymin (box_2d a) - ymin (box_2d b)) <= 50)%Z) ->
   ordered (fun a b => (xmin (box_2d b) - xmin (box_2d a))%Z) (sort compareBubbles l)) /\
  ((forall a b, a ∈ l -> b ∈ l ->
                a = b \/ (Z.abs (ymin (box_2d a) - ymin (box_2d b)) > 50)%Z) ->
   ordered (fun a b => (ymin (box_2d a) - ymin (box_2d b))%Z) (sort compareBubbles l)).
Proof.
  split; [apply sort_perm|]. split.
  - intros Hband.
    apply (ordered_ext (fun a b => (- xmin (box_2d a) - - xmin (box_2d b))%Z));
      [intros a b; lia|].
    apply (sort_by_key compareBubbles (fun a => (- xmin (box_2d a))%Z)).
    intros a b Ha Hb. unfold compareBubbles.
    specialize (Hband a b Ha Hb).
    destruct (Z.gtb_spec (Z.abs (ymin (box_2d a) - ymin (box_2d b))) 50); lia.
  - intros Hapart.
    apply (sort_by_key compareBubbles (fun a => ymin (box_2d a))).
    intros a b Ha Hb. unfold compareBubbles.
    destruct (Hapart a b Ha Hb) as [->|Hgt].
    + replace (ymin (box_2d b) - ymin (box_2d b))%Z with 0%Z by lia. simpl. lia.
    + destruct (Z.gtb_spec (Z.abs (ymin (box_2d a) - ymin (box_2d b))) 50); lia.
Qed.

Lemma bubbles_in_line_or_apart_witness :
  ordered (fun a b => (xmin (box_2d b) - xmin (box_2d a))%Z)
          (sort compareBubbles [bubbleB; bubbleA]).
Proof.
  apply (proj1 (proj2 (bubbles_in_line_or_apart [bubbleB; bubbleA]))).
  intros a b Ha Hb.
  apply elem_of_cons in Ha as [->|Ha]; [|apply list_elem_of_singleton in Ha as ->];
    (apply elem_of_cons in Hb as [->|Hb]; [|apply list_elem_of_singleton in Hb as ->]);
    vm_compute; discriminate.
Defined.

(** ** [Reader.tsx]: the extract button *)

(** X29: once an OCR batch has returned, the extract button of a page of
    the batch is enabled exactly when the text returned for the page is
    falsy: a page that came back without text offers the extraction
    again, a page with a text shows it as done. *)
Theorem extract_button_after_ocr (JSON_parse : string -> outcome value) (st : State)
    (index r : nat) (urls : list string) (merged : outcome string) (response : reply)
    (texts : list value) (t : value) :
  performBatchedOCR JSON_parse urls merged response = Returns texts ->
  texts !! r = Some t ->
  currentIndex st = index + r ->
  extractEnabled (requestOCRForPage_settled JSON_parse index urls merged response st)
  = negb (truthy t).
Proof.
  intros Hocr Ht Hcur. unfold extractEnabled, requestOCRForPage_settled, cached.
  rewrite Hocr. cbn [currentIndex ocrTextCache requestOCRForPage_finally
                     set_pendingOCRBatches set_ocrTextCache set_waiting].
  rewrite Hcur, (store_texts_at _ _ _ _ _ Ht). cbn [default from_option id].
  unfold or_else. by destruct (truthy t) eqn:Htruthy; [rewrite Htruthy|].
Qed.

Lemma extract_button_after_ocr_witness :
  extractEnabled
    (requestOCRForPage_settled MiniJSON.parse 0 three_pages (Returns "merged")
       (Returns (Some hello_world))
       (set_currentIndex 1 (requestOCRForPage three_pages 0 ∅ initial)))
  = negb (truthy (VStr "")).
Proof.
  apply (extract_button_after_ocr MiniJSON.parse
           (set_currentIndex 1 (requestOCRForPage three_pages 0 ∅ initial))
           0 1 three_pages (Returns "merged") (Returns (Some hello_world))
           [VStr "Hello"; VStr ""; VStr "World"] (VStr "")).
  - vm_compute. reflexivity.
  - reflexivity.
  - reflexivity.
Defined.
